(** * Voice activity detectors of [hass_satellite/vad.py]

    A shallow embedding of the module [assist_microphone/hass_satellite/vad.py]:
    the abstract [VoiceActivityDetector], the recurrent
    [SileroVoiceActivityDetector] on top of an ONNX inference session, and
    the [WebrtcVoiceActivityDetector] on top of the WebRTC classifier.

    The numpy arrays the module builds are modelled with their dtype, shape
    and flat data; float32 arithmetic is IEEE 754 binary32 as specified by
    [SpecFloat] (precision 24, emax 128), Python floats are binary64.  The
    inference engine and the WebRTC classifier are collaborators outside the
    module: they are section variables, and every call the module makes to
    them is recorded in the outcome of the operation. *)

From Stdlib Require Import ZArith QArith Qabs List Bool Lia.
From Stdlib Require Import Floats.SpecFloat.
From Stdlib Require Import Strings.String Init.Byte.
From stdpp Require Import base gmap strings list.
Import ListNotations.

Local Open Scope Z_scope.

(** ** Python values *)

(** [bytes]: the raw audio buffer. *)
Definition bytes := list byte.

Definition byte_val (b : byte) : Z := Z.of_N (Byte.to_N b).

(** Exceptions that can leave the module. *)
Inductive error :=
| MalformedAudioFrame
    (* ValueError of np.frombuffer: buffer size must be a multiple of
       element size *)
| UnpackError (n : nat)
    (* ValueError of [out, self._h, self._c = ort_outs] when the engine
       returned n values, n <> 3 *)
| External (what : string).
    (* raised inside onnxruntime or webrtcvad and not caught here *)

(** What a collaborator hands back: its value, or the exception it raised,
    which the module lets through. *)
Definition external {A : Type} (r : string + A) : error + A :=
  match r with
  | inl what => inl (External what)
  | inr a => inr a
  end.

(** ** Floating point: binary32 and binary64 *)

Module F32.
Definition prec := 24.
Definition emax := 128.
Definition of_Z (z : Z) : spec_float := binary_normalize prec emax z 0 false.
Definition div (x y : spec_float) : spec_float := SFdiv prec emax x y.
(** Rounding of any float to binary32 ([astype(np.float32)] on floats). *)
Definition round (x : spec_float) : spec_float :=
  match x with
  | S754_finite s m e =>
      binary_normalize prec emax (if s then Z.neg m else Z.pos m) e s
  | _ => x
  end.
Definition zero : spec_float := S754_zero false.
Definition one : spec_float := of_Z 1.
End F32.

Module F64.
Definition prec := 53.
Definition emax := 1024.
Definition of_Z (z : Z) : spec_float := binary_normalize prec emax z 0 false.
Definition zero : spec_float := S754_zero false.
Definition one : spec_float := of_Z 1.
End F64.

(** The real number a float stands for, as a rational; infinities and NaN
    stand for none.  It does not depend on the format the float is in. *)
Definition F2Q (x : spec_float) : option Q :=
  match x with
  | S754_zero _ => Some 0%Q
  | S754_finite s m e =>
      Some (inject_Z (if s then Z.neg m else Z.pos m) * Qpower 2 e)%Q
  | S754_infinity _ | S754_nan => None
  end.

(** [0.0 <= x <= 1.0]; false on NaN, as every comparison with NaN is. *)
Definition in_unit_interval (x : spec_float) : bool :=
  match F2Q x with
  | Some q => Qle_bool 0 q && Qle_bool q 1
  | None => false
  end.

(** ** numpy arrays *)

Inductive dtype := int16 | int64 | float32 | float64.

Inductive scalar :=
| SInt (z : Z)
| SFlt (f : spec_float).

Record ndarray := mk_ndarray {
  nd_dtype : dtype;
  shape : list nat;
  data : list scalar
}.

#[global] Instance dtype_eq_dec : EqDecision dtype.
Proof. solve_decision. Defined.

Fixpoint prod_shape (s : list nat) : nat :=
  match s with
  | [] => 1%nat
  | n :: s' => (n * prod_shape s')%nat
  end.

(** [np.zeros(shape)]: float64 zeros. *)
Definition np_zeros (s : list nat) : ndarray :=
  {| nd_dtype := float64; shape := s;
     data := repeat (SFlt F64.zero) (prod_shape s) |}.

Definition to_float32 (x : scalar) : scalar :=
  match x with
  | SInt z => SFlt (F32.of_Z z)
  | SFlt f => SFlt (F32.round f)
  end.

(** [a.astype(np.float32)], also spelt [a.astype("float32")]. *)
Definition astype_float32 (a : ndarray) : ndarray :=
  {| nd_dtype := float32; shape := shape a; data := map to_float32 (data a) |}.

(** Two's complement reading of a 16-bit pattern. *)
Definition sint16 (u : Z) : Z :=
  if Z.testbit u 15 then u - 65536 else u.

(** The int16 samples of a buffer, little-endian, two bytes each. *)
Fixpoint int16_le (audio : bytes) : list Z :=
  match audio with
  | lo :: hi :: rest =>
      sint16 (Z.lor (byte_val lo) (Z.shiftl (byte_val hi) 8)) :: int16_le rest
  | _ => []
  end.

(** [np.frombuffer(audio, dtype=np.int16)]: a one-dimensional int16 array
    over the buffer; a buffer whose size is not a multiple of the element
    size is refused. *)
Definition np_frombuffer_int16 (audio : bytes) : error + ndarray :=
  if (length audio mod 2 =? 0)%nat then
    inr {| nd_dtype := int16; shape := [(length audio / 2)%nat];
           data := map SInt (int16_le audio) |}
  else inl MalformedAudioFrame.

Definition div_scalar (d : spec_float) (x : scalar) : scalar :=
  match x with
  | SFlt f => SFlt (F32.div f d)
  | SInt z => SFlt (F32.div (F32.of_Z z) d)
  end.

(** [a / d] for a float32 array [a] and a Python float [d] that binary32
    represents exactly: elementwise binary32 division, float32 result. *)
Definition np_divide (a : ndarray) (d : spec_float) : ndarray :=
  {| nd_dtype := float32; shape := shape a; data := map (div_scalar d) (data a) |}.

(** [np.expand_dims(a, 0)]. *)
Definition np_expand_dims_0 (a : ndarray) : ndarray :=
  {| nd_dtype := nd_dtype a; shape := 1%nat :: shape a; data := data a |}.

(** [np.array(v, dtype=np.int64)] for a Python int that fits: a
    zero-dimensional array. *)
Definition np_array_int64 (v : Z) : ndarray :=
  {| nd_dtype := int64; shape := []; data := [SInt v] |}.

(** [a.squeeze()]: the axes of length one are dropped. *)
Definition squeeze (a : ndarray) : ndarray :=
  {| nd_dtype := nd_dtype a;
     shape := filter (fun n => n ≠ 1%nat) (shape a);
     data := data a |}.

(** What a detector hands back: a Python float or an array. *)
Inductive pyvalue :=
| PyFloat (f : spec_float)
| PyArray (a : ndarray).

Definition scalar_in_unit (x : scalar) : bool :=
  match x with
  | SFlt f => in_unit_interval f
  | SInt _ => false
  end.

(** A floating-point probability: a float, or a float array, all of whose
    entries lie in [0.0, 1.0]. *)
Definition is_probability (v : pyvalue) : bool :=
  match v with
  | PyFloat f => in_unit_interval f
  | PyArray a =>
      bool_decide (nd_dtype a = float32 ∨ nd_dtype a = float64)
      && forallb scalar_in_unit (data a)
  end.

Definition _RATE : Z := 16000.


(** ** Operations on an object: state, exceptions, calls to collaborators

    A method runs on the object [self : S]; it returns a value or raises,
    leaves the object in some state, and has made some calls to the
    collaborators behind the object, which are logged as events of type [E]. *)

Record outcome (S E A : Type) := Outcome {
  result : error + A;
  self_after : S;
  calls : list E
}.
Arguments Outcome {S E A} _ _ _.
Arguments result {S E A} _.
Arguments self_after {S E A} _.
Arguments calls {S E A} _.

Definition M (S E A : Type) : Type := S -> outcome S E A.

Section Effects.
Context {S E : Type}.

Definition ret {A} (a : A) : M S E A := fun self => Outcome (inr a) self [].

Definition raise {A} (e : error) : M S E A := fun self => Outcome (inl e) self [].

Definition bind {A B} (m : M S E A) (f : A -> M S E B) : M S E B :=
  fun self =>
    let o := m self in
    match result o with
    | inl e => Outcome (inl e) (self_after o) (calls o)
    | inr a =>
        let o' := f a (self_after o) in
        Outcome (result o') (self_after o') (calls o ++ calls o')
    end.

Definition get : M S E S := fun self => Outcome (inr self) self [].

Definition put (self' : S) : M S E unit := fun _ => Outcome (inr tt) self' [].

(** A pure step that can raise. *)
Definition lift {A} (r : error + A) : M S E A :=
  match r with
  | inl e => raise e
  | inr a => ret a
  end.
End Effects.

Declare Scope py_scope.
Delimit Scope py_scope with py.
Notation "x <- m ;; k" := (bind m (fun x => k))
  (at level 100, m at next level, right associativity) : py_scope.

(** ** The abstract detector

    [class VoiceActivityDetector(ABC)]: [__call__] is abstract, [reset] has
    a body, [pass]. *)

Class VoiceActivityDetector (D E : Type) := {
  vad_call : bytes -> M D E pyvalue;
  vad_reset : M D E unit
}.

(** [VoiceActivityDetector.reset]: [pass]. *)
Definition VoiceActivityDetector_reset {D E : Type} : M D E unit := ret tt.

(** [onnx_path: Union[str, Path]] and [str(onnx_path)]. *)
Inductive path_like :=
| PathStr (s : string)
| PathObj (s : string).

Definition str (p : path_like) : string :=
  match p with
  | PathStr s => s
  | PathObj s => s
  end.

(** ** The Silero detector *)

Module SileroVoiceActivityDetector.
Section WithEngine.

(** The inference engine (onnxruntime).  [Engine] is whatever a loaded
    session holds; loading a graph can fail; running the session on named
    inputs returns a list of arrays or raises, and may change what the
    session holds. *)
Variable Engine : Type.

(** The session object: the engine's part and the two attributes the
    constructor assigns on it. *)
Record InferenceSession := mk_session {
  ort_state : Engine;
  intra_op_num_threads : option Z;
  inter_op_num_threads : option Z
}.

Variable ort_load : string -> string + Engine.
Variable ort_run :
  InferenceSession -> option (list string) -> gmap string ndarray ->
  (string + list ndarray) * Engine.

(** One call of [session.run]. *)
Record run_call := mk_run_call {
  rc_session : InferenceSession;
  rc_output_names : option (list string);
  rc_inputs : gmap string ndarray
}.

(** The detector object. *)
Record t := mk {
  session : InferenceSession;
  _h : ndarray;
  _c : ndarray
}.

(** [np.zeros((2, 1, 64)).astype("float32")] *)
Definition zero_state : ndarray :=
  astype_float32 (np_zeros [2; 1; 64]%nat).

(** [onnxruntime.InferenceSession(onnx_path)]: a new session object, on
    which neither attribute is set. *)
Definition new_InferenceSession (onnx_path : string) : error + InferenceSession :=
  match external (ort_load onnx_path) with
  | inl e => inl e
  | inr eng =>
      inr {| ort_state := eng;
             intra_op_num_threads := None;
             inter_op_num_threads := None |}
  end.

Definition __init__ (onnx_path : path_like) : error + t :=
  let onnx_path := str onnx_path in
  match new_InferenceSession onnx_path with
  | inl e => inl e
  | inr session0 =>
      let session1 :=
        {| ort_state := ort_state session0;
           intra_op_num_threads := Some 1;
           inter_op_num_threads := inter_op_num_threads session0 |} in
      let session2 :=
        {| ort_state := ort_state session1;
           intra_op_num_threads := intra_op_num_threads session1;
           inter_op_num_threads := Some 1 |} in
      inr {| session := session2; _h := zero_state; _c := zero_state |}
  end.

Definition reset : M t run_call unit :=
  (self <- get ;;
   _ <- put {| session := session self; _h := zero_state; _c := _c self |} ;;
   self <- get ;;
   put {| session := session self; _h := _h self; _c := zero_state |})%py.

(** [self.session.run(output_names, inputs)] *)
Definition session_run (output_names : option (list string))
    (inputs : gmap string ndarray) : M t run_call (list ndarray) :=
  fun self =>
    let '(r, eng) := ort_run (session self) output_names inputs in
    Outcome (external r)
      {| session :=
           {| ort_state := eng;
              intra_op_num_threads := intra_op_num_threads (session self);
              inter_op_num_threads := inter_op_num_threads (session self) |};
         _h := _h self; _c := _c self |}
      [mk_run_call (session self) output_names inputs].

(** The dictionary [ort_inputs] built for a decoded, normalised array. *)
Definition ort_inputs (self : t) (audio_array : ndarray) : gmap string ndarray :=
  <["input" := astype_float32 audio_array]>
  (<["h" := _h self]>
  (<["c" := _c self]>
  (<["sr" := np_array_int64 _RATE]> ∅))).

(** [np.frombuffer(audio, dtype=np.int16).astype(np.float32) / 32767.0],
    then the batch dimension. *)
Definition decode (audio : bytes) : error + ndarray :=
  match np_frombuffer_int16 audio with
  | inl e => inl e
  | inr a =>
      let audio_array := np_divide (astype_float32 a) (F32.of_Z 32767) in
      inr (if (length (shape audio_array) =? 1)%nat
           then np_expand_dims_0 audio_array
           else audio_array)
  end.

Definition __call__ (audio : bytes) : M t run_call pyvalue :=
  (audio_array <- lift (decode audio) ;;
   self <- get ;;
   ort_outs <- session_run None (ort_inputs self audio_array) ;;
   match ort_outs with
   | [out; h; c] =>
       self <- get ;;
       _ <- put {| session := session self; _h := h; _c := c |} ;;
       ret (PyArray (squeeze out))
   | _ => raise (UnpackError (length ort_outs))
   end)%py.

#[export] Instance detector : VoiceActivityDetector t run_call :=
  {| vad_call := __call__; vad_reset := reset |}.

(** The states a detector object can be in: as constructed, and after
    any [reset] or [__call__], whether it returned or raised. *)
Inductive reachable : t -> Prop :=
| reachable_init onnx_path self :
    __init__ onnx_path = inr self -> reachable self
| reachable_reset self :
    reachable self -> reachable (self_after (reset self))
| reachable_call self audio :
    reachable self -> reachable (self_after (__call__ audio self)).

(** Feeding a stream: one [__call__] per frame, in order; the caller
    keeps what each call returned or raised. *)
Fixpoint feed (frames : list bytes) (self : t) : list (error + pyvalue) * t :=
  match frames with
  | [] => ([], self)
  | audio :: rest =>
      let o := __call__ audio self in
      let '(rs, self') := feed rest (self_after o) in
      (result o :: rs, self')
  end.

End WithEngine.

Arguments ort_state {Engine} _.
Arguments intra_op_num_threads {Engine} _.
Arguments inter_op_num_threads {Engine} _.
Arguments mk_session {Engine} _ _ _.
Arguments session {Engine} _.
Arguments _h {Engine} _.
Arguments _c {Engine} _.
Arguments mk {Engine} _ _ _.
Arguments mk_run_call {Engine} _ _ _.
Arguments rc_session {Engine} _.
Arguments rc_output_names {Engine} _.
Arguments rc_inputs {Engine} _.
Arguments ort_inputs {Engine} _ _.
End SileroVoiceActivityDetector.

(** ** The WebRTC detector *)

Module WebrtcVoiceActivityDetector.
Section WithClassifier.

(** The classifier (webrtcvad).  [Vad] is what a classifier object holds;
    [set_mode] refuses the modes the classifier does not know;
    [is_speech] answers or raises, and may change what the object holds. *)
Variable Vad : Type.
Variable Vad_new : Vad.
Variable Vad_set_mode : Vad -> Z -> string + Vad.
Variable Vad_is_speech : Vad -> bytes -> Z -> (string + bool) * Vad.

(** One call of [vad.is_speech]. *)
Record is_speech_call := mk_is_speech_call {
  isc_vad : Vad;
  isc_buf : bytes;
  isc_sample_rate : Z
}.

(** The detector object. *)
Record t := mk { vad : Vad }.

(** [def __init__(self, mode: int = 3)] *)
Definition __init__ (mode : option Z) : error + t :=
  let mode := default 3 mode in
  let vad0 := Vad_new in
  match external (Vad_set_mode vad0 mode) with
  | inl e => inl e
  | inr vad1 => inr {| vad := vad1 |}
  end.

(** [self.vad.is_speech(audio, sample_rate)] *)
Definition vad_is_speech (audio : bytes) (sample_rate : Z)
    : M t is_speech_call bool :=
  fun self =>
    let '(r, v) := Vad_is_speech (vad self) audio sample_rate in
    Outcome (external r) {| vad := v |}
      [mk_is_speech_call (vad self) audio sample_rate].

Definition __call__ (audio : bytes) : M t is_speech_call pyvalue :=
  (speech <- vad_is_speech audio _RATE ;;
   ret (PyFloat (if speech : bool then F64.one else F64.zero)))%py.

(** [reset] is not overridden: the inherited one. *)
Definition reset : M t is_speech_call unit := VoiceActivityDetector_reset.

#[export] Instance detector : VoiceActivityDetector t is_speech_call :=
  {| vad_call := __call__; vad_reset := reset |}.

End WithClassifier.

Arguments vad {Vad} _.
Arguments mk {Vad} _.
Arguments mk_is_speech_call {Vad} _ _ _.
End WebrtcVoiceActivityDetector.

Module Silero := SileroVoiceActivityDetector.
Module Webrtc := WebrtcVoiceActivityDetector.

(** ** Collaborators to run the detectors on *)

(** The value of every entry of a state tensor that is all of one value. *)
Definition np_full_f32 (s : list nat) (x : spec_float) : ndarray :=
  {| nd_dtype := float32; shape := s; data := repeat (SFlt x) (prod_shape s) |}.

Definition first_entry (a : ndarray) : spec_float :=
  match data a with
  | SFlt f :: _ => f
  | _ => F32.zero
  end.

(** A small recurrent engine.  It counts its runs, which its answers do
    not depend on.  The probability it answers is the first entry of
    the hidden state it is given; the hidden state it hands back is all
    one after a frame that has samples and all zero after an empty one;
    the cell state is handed back as it came. *)
Module EchoEngine.
Definition Engine := nat.

Definition load (onnx_path : string) : string + Engine :=
  if String.eqb onnx_path EmptyString then inl "NoSuchFile"%string else inr 0%nat.

Definition run (sess : Silero.InferenceSession Engine)
    (output_names : option (list string)) (inputs : gmap string ndarray)
    : (string + list ndarray) * Engine :=
  let runs := S (Silero.ort_state sess) in
  match inputs !! "input"%string, inputs !! "h"%string, inputs !! "c"%string with
  | Some x, Some h, Some c =>
      (inr [np_full_f32 [1; 1]%nat (first_entry h);
            np_full_f32 [2; 1; 64]%nat
              (match data x with [] => F32.zero | _ => F32.one end);
            c],
       runs)
  | _, _, _ => (inl "InvalidArgument"%string, runs)
  end.
End EchoEngine.

(** An engine whose graph is not a Silero one: the first output is 2.0 and
    the states it hands back have one entry. *)
Module OtherEngine.
Definition Engine := unit.

Definition load (onnx_path : string) : string + Engine := inr tt.

Definition run (sess : Silero.InferenceSession Engine)
    (output_names : option (list string)) (inputs : gmap string ndarray)
    : (string + list ndarray) * Engine :=
  (inr [np_full_f32 [1; 1]%nat (F32.of_Z 2);
        np_full_f32 [1]%nat F32.zero;
        np_full_f32 [1]%nat F32.zero], tt).
End OtherEngine.

(** A classifier with the checks of the WebRTC one: modes 0 to 3; at
    16000 Hz, frames of 10, 20 or 30 ms, that is 160, 320 or 480 samples.
    It takes a frame for speech when a byte of it is not zero. *)
Module FrameCheckingVad.
Definition Vad := Z.

Definition new : Vad := 0.

Definition set_mode (v : Vad) (mode : Z) : string + Vad :=
  if (0 <=? mode) && (mode <=? 3) then inr mode else inl "ValueError"%string.

Definition valid_length (sample_rate : Z) (samples : nat) : bool :=
  (sample_rate =? 16000)
  && ((samples =? 160)%nat || (samples =? 320)%nat || (samples =? 480)%nat).

Definition is_speech (v : Vad) (buf : bytes) (sample_rate : Z)
    : (string + bool) * Vad :=
  if valid_length sample_rate (length buf / 2)%nat
  then (inr (existsb (fun b => negb (byte_val b =? 0)) buf), v)
  else (inl "Error while processing frame"%string, v).
End FrameCheckingVad.

(** ** Samples and their normalisation *)

(** A sample divided by 32767.0 in binary32: what [__call__] does to
    every sample of the frame. *)
Definition normalize (z : Z) : spec_float :=
  F32.div (F32.of_Z z) (F32.of_Z 32767).

#[global] Instance spec_float_eq_dec : EqDecision spec_float.
Proof. solve_decision. Defined.

(** [P] on [lo], [lo+1], ..., [lo+n-1]. *)
Fixpoint forall_from (lo : Z) (n : nat) (P : Z -> bool) : bool :=
  match n with
  | O => true
  | S n' => P lo && forall_from (lo + 1) n' P
  end.

(** Rounding a normalised sample to binary32 again changes nothing. *)
Definition round_stable (z : Z) : bool :=
  bool_decide (F32.round (normalize z) = normalize z).

(** The normalised sample is the quotient [z/32767] up to the relative
    error of one rounding to nearest in binary32. *)
Definition well_rounded (z : Z) : bool :=
  match F2Q (normalize z) with
  | Some q =>
      Qle_bool (Qabs (q * 32767 - inject_Z z)) (Qabs (inject_Z z) * (1 # 16777216))
  | None => false
  end.

(** The array the engine is to get as [input] for a frame: one batch of
    the normalised samples. *)
Definition batched_samples (audio : bytes) : ndarray :=
  {| nd_dtype := float32;
     shape := [1; length audio / 2]%nat;
     data := map (fun z => SFlt (normalize z)) (int16_le audio) |}.

(** ** States and engines *)

(** The invariant of the recurrent state: a tensor of shape (2,1,64) and
    dtype float32. *)
Definition is_state_tensor (a : ndarray) : Prop :=
  shape a = [2; 1; 64]%nat /\ nd_dtype a = float32.


Section Engines.
Variable Engine : Type.
Variable ort_run :
  Silero.InferenceSession Engine ->
  option (list string) -> gmap string ndarray ->
  (string + list ndarray) * Engine.

(** The session with the engine's part replaced, the attributes kept:
    the session object after a run. *)
Definition after_run (sess : Silero.InferenceSession Engine)
    (eng : Engine) : Silero.InferenceSession Engine :=
  Silero.mk_session eng
    (Silero.intra_op_num_threads sess)
    (Silero.inter_op_num_threads sess).

(** The engine hands back states of the shape and dtype of the states it
    was given: whenever a run on inputs whose [h] and [c] are (2,1,64)
    float32 tensors returns three arrays, the second and the third are
    (2,1,64) float32 tensors. *)
Definition keeps_state_shape : Prop :=
  forall sess names (inputs : gmap string ndarray) hi ci out h c eng,
    inputs !! "h"%string = Some hi -> inputs !! "c"%string = Some ci ->
    is_state_tensor hi -> is_state_tensor ci ->
    ort_run sess names inputs = (inr [out; h; c], eng) ->
    is_state_tensor h /\ is_state_tensor c.

(** The engine is a deterministic function of its inputs: what a run
    returns or raises is fixed by the output names and the named inputs,
    whatever the session has been through. *)
Definition deterministic : Prop :=
  forall sess1 sess2 names inputs,
    fst (ort_run sess1 names inputs) = fst (ort_run sess2 names inputs).

(** What [__call__] comes to once the frame is decoded: one run of the
    session, then the unpacking of what it returned. *)
Definition call_outcome (self : Silero.t Engine) (audio_array : ndarray)
    : outcome (Silero.t Engine) (Silero.run_call Engine) pyvalue :=
  let inputs := Silero.ort_inputs self audio_array in
  let '(r, eng) := ort_run (Silero.session self) None inputs in
  let sess := after_run (Silero.session self) eng in
  let log := [Silero.mk_run_call (Silero.session self) None inputs] in
  match r with
  | inl what =>
      Outcome (inl (External what))
        (Silero.mk sess (Silero._h self) (Silero._c self)) log
  | inr [out; h; c] =>
      Outcome (inr (PyArray (squeeze out))) (Silero.mk sess h c) log
  | inr outs =>
      Outcome (inl (UnpackError (length outs)))
        (Silero.mk sess (Silero._h self) (Silero._c self)) log
  end.
End Engines.

Arguments after_run {Engine} _ _.
Arguments keeps_state_shape {Engine} _.
Arguments deterministic {Engine} _.
Arguments call_outcome {Engine} _ _ _.

(** Both checks, on one sample. *)
Definition sample_checks (z : Z) : bool := round_stable z && well_rounded z.

(** The float [x] stands for the rational [q]. *)
Definition represents (x : spec_float) (q : Q) : Prop :=
  match F2Q x with
  | Some q' => (q' == q)%Q
  | None => False
  end.

(** ** Detector objects to run *)

(** The Silero detector over [EchoEngine], as constructed. *)
Definition echo_self : Silero.t EchoEngine.Engine :=
  Silero.mk (Silero.mk_session 0%nat (Some 1) (Some 1))
    Silero.zero_state Silero.zero_state.

(** The Silero detector over [OtherEngine], as constructed. *)
Definition other_self : Silero.t OtherEngine.Engine :=
  Silero.mk (Silero.mk_session tt (Some 1) (Some 1))
    Silero.zero_state Silero.zero_state.

(** The WebRTC detector over [FrameCheckingVad], constructed with the
    default mode. *)
Definition checking_self : Webrtc.t FrameCheckingVad.Vad := Webrtc.mk 3.

(** 10 ms of silence at 16 kHz: 160 samples, 320 bytes. *)
Definition silence_10ms : bytes := repeat x00 320.

(** A short stream: the lowest sample, an empty frame, a frame of one
    byte, two samples. *)
Definition stream : list bytes :=
  [[x00; x80]; []; [x01]; [xff; x7f; x00; x00]].

Abbreviation echo_call := (Silero.__call__ EchoEngine.Engine EchoEngine.run).
Abbreviation echo_reachable :=
  (Silero.reachable EchoEngine.Engine EchoEngine.load EchoEngine.run).
Abbreviation echo_feed := (Silero.feed EchoEngine.Engine EchoEngine.run).
Abbreviation other_call := (Silero.__call__ OtherEngine.Engine OtherEngine.run).
Abbreviation checking_call :=
  (Webrtc.__call__ FrameCheckingVad.Vad FrameCheckingVad.is_speech).

(** ** More on samples and arrays *)

(** The rational a normalised sample stands for. *)
Definition normalize_Q (z : Z) : Q :=
  match F2Q (normalize z) with
  | Some q => q
  | None => 0%Q
  end.

(** The rational an entry of an array stands for, when it is a finite
    float. *)
Definition scalar_Q (x : scalar) : option Q :=
  match x with
  | SFlt f => F2Q f
  | SInt _ => None
  end.

(** [astype(np.float32)] of the int16 value [z] stands for [z] itself. *)
Definition converts_exactly (z : Z) : bool :=
  match F2Q (F32.of_Z z) with
  | Some q => Qeq_bool q (inject_Z z)
  | None => false
  end.

(** The least normalised value, that of the sample -32768. *)
Definition least_normalized : Q := - (8388864 # 8388608).

(** [q], the normalised value of the sample [z], is between the least
    value and 1.0, and below -1.0 for the sample -32768 only. *)
Definition within_bounds (z : Z) (q : Q) : bool :=
  Qle_bool least_normalized q && Qle_bool q 1
  && (Qle_bool (- (1)) q || (z =? -32768)).

(** From the sample [lo] on, for [n] samples: each normalised value is
    finite, within bounds and strictly above the one before it, [prev]
    for the first. *)
Fixpoint increasing_from (lo : Z) (n : nat) (prev : Q) : bool :=
  match n with
  | O => true
  | S n' =>
      match F2Q (normalize lo) with
      | Some q =>
          negb (Qle_bool q prev) && within_bounds lo q
          && increasing_from (lo + 1) n' q
      | None => false
      end
  end.

(** The value of the two bytes [lo], [hi] read as a little-endian two's
    complement number, in arithmetic. *)
Definition sample_of (lo hi : Z) : Z :=
  (lo + 256 * hi + 32768) mod 65536 - 32768.

Definition reads_as_sample (hi lo : Z) : bool :=
  sint16 (Z.lor lo (Z.shiftl hi 8)) =? sample_of lo hi.

Definition byte_pair_checks (hi : Z) : bool :=
  forall_from 0 256 (reads_as_sample hi).

(** An array has as many entries as its shape says. *)
Definition well_formed (a : ndarray) : Prop :=
  length (data a) = prod_shape (shape a).

Section EngineResults.
Variable Engine : Type.
Variable ort_run :
  Silero.InferenceSession Engine ->
  option (list string) -> gmap string ndarray ->
  (string + list ndarray) * Engine.

(** Run on well-formed states, the engine returns well-formed arrays. *)
Definition returns_well_formed : Prop :=
  forall sess names (inputs : gmap string ndarray) hi ci outs eng,
    inputs !! "h"%string = Some hi -> inputs !! "c"%string = Some ci ->
    well_formed hi -> well_formed ci ->
    ort_run sess names inputs = (inr outs, eng) -> Forall well_formed outs.
End EngineResults.

Arguments returns_well_formed {Engine} _.

(** * Properties *)

(** ** Samples *)

Lemma forall_from_spec (P : Z -> bool) n lo :
  forall_from lo n P = true -> forall z, lo <= z < lo + Z.of_nat n -> P z = true.
Proof.
  revert lo; induction n as [|n IH]; intros lo H z Hz; [lia|].
  simpl in H. apply andb_true_iff in H as [H0 H1].
  destruct (Z.eq_dec z lo) as [->|Hne]; [exact H0|].
  apply (IH (lo + 1)); [exact H1|lia].
Qed.

(** Every int16 value passes both checks: 65536 evaluations. *)
Lemma sample_checks_all :
  forall_from (-32768) (Z.to_nat 65536) sample_checks = true.
Proof. vm_cast_no_check (eq_refl true). Qed.

Lemma byte_val_range b : 0 <= byte_val b <= 255.
Proof.
  unfold byte_val. pose proof (Byte.to_N_bounded b). lia.
Qed.

Lemma sint16_range lo hi :
  0 <= lo <= 255 -> 0 <= hi <= 255 ->
  -32768 <= sint16 (Z.lor lo (Z.shiftl hi 8)) <= 32767.
Proof.
  intros Hlo Hhi.
  assert (Hu : 0 <= Z.lor lo (Z.shiftl hi 8) < 65536).
  { assert (H8 : 0 <= Z.shiftl hi 8 < 65536).
    { rewrite Z.shiftl_mul_pow2 by lia. change (2 ^ 8) with 256. lia. }
    split; [apply Z.lor_nonneg; lia|].
    destruct (Z.eq_dec (Z.lor lo (Z.shiftl hi 8)) 0) as [->|Hnz]; [lia|].
    apply (Z.log2_lt_pow2 _ 16); [pose proof (Z.lor_nonneg lo (Z.shiftl hi 8)); lia|].
    rewrite Z.log2_lor by lia.
    apply Z.max_lub_lt.
    - destruct (Z.eq_dec lo 0) as [->|]; [reflexivity|].
      apply Z.log2_lt_pow2; lia.
    - destruct (Z.eq_dec (Z.shiftl hi 8) 0) as [->|]; [reflexivity|].
      apply Z.log2_lt_pow2; lia. }
  unfold sint16. set (u := Z.lor lo (Z.shiftl hi 8)) in *.
  destruct (Z.testbit u 15) eqn:Hb.
  - apply Z.testbit_true in Hb; [|lia].
    change (2 ^ 15) with 32768 in Hb.
    assert (u / 32768 <> 0) by (intros E; rewrite E in Hb; discriminate).
    assert (32768 <= u).
    { destruct (Z_lt_le_dec u 32768); [|lia]. rewrite Z.div_small in H; lia. }
    lia.
  - apply Z.testbit_false in Hb; [|lia].
    change (2 ^ 15) with 32768 in Hb.
    destruct (Z_lt_le_dec u 32768); [lia|].
    assert (u / 32768 = 1).
    { apply Z.le_antisymm.
      - apply Z.lt_succ_r. apply Z.div_lt_upper_bound; lia.
      - apply Z.div_le_lower_bound; lia. }
    rewrite H in Hb. discriminate.
Qed.

Lemma bytes_pair_ind (P : bytes -> Prop) :
  P [] -> (forall b, P [b]) ->
  (forall lo hi rest, P rest -> P (lo :: hi :: rest)) ->
  forall audio, P audio.
Proof.
  intros H0 H1 H2 audio.
  enough (H : P audio /\ forall b, P (b :: audio)) by apply H.
  induction audio as [|a audio [IHa IHb]]; split; auto.
Qed.

Lemma int16_le_range audio : Forall (fun z => -32768 <= z <= 32767) (int16_le audio).
Proof.
  induction audio as [| b | lo hi rest IH] using bytes_pair_ind; simpl;
    constructor; [|exact IH].
  apply sint16_range; apply byte_val_range.
Qed.

Lemma int16_le_length audio : length (int16_le audio) = (length audio / 2)%nat.
Proof.
  induction audio as [| b | lo hi rest IH] using bytes_pair_ind;
    try reflexivity.
  cbn [int16_le length]. rewrite IH.
  change (S (S (length rest))) with (1 * 2 + length rest)%nat.
  rewrite Nat.div_add_l by lia. lia.
Qed.

Lemma normalize_round_stable z :
  -32768 <= z <= 32767 -> F32.round (normalize z) = normalize z.
Proof.
  intros Hz.
  pose proof (forall_from_spec _ _ _ sample_checks_all z ltac:(lia)) as H.
  apply andb_true_iff in H as [H _].
  unfold round_stable in H. exact (bool_decide_eq_true_1 _ H).
Qed.

Lemma normalize_well_rounded z :
  -32768 <= z <= 32767 -> well_rounded z = true.
Proof.
  intros Hz.
  pose proof (forall_from_spec _ _ _ sample_checks_all z ltac:(lia)) as H.
  apply andb_true_iff in H as [_ H]. exact H.
Qed.

Lemma decode_even audio :
  (length audio mod 2 = 0)%nat ->
  Silero.decode audio = inr (batched_samples audio).
Proof.
  intros Hev. unfold Silero.decode, np_frombuffer_int16.
  rewrite (proj2 (Nat.eqb_eq _ _) Hev). cbn -[Nat.div F32.of_Z].
  unfold batched_samples, np_expand_dims_0, np_divide, astype_float32.
  cbn -[Nat.div F32.of_Z]. do 2 f_equal.
  rewrite !List.map_map. reflexivity.
Qed.

Lemma decode_odd audio :
  (length audio mod 2 <> 0)%nat ->
  Silero.decode audio = inl MalformedAudioFrame.
Proof.
  intros Hodd. unfold Silero.decode, np_frombuffer_int16.
  rewrite (proj2 (Nat.eqb_neq _ _) Hodd). reflexivity.
Qed.

Lemma astype_batched_samples audio :
  astype_float32 (batched_samples audio) = batched_samples audio.
Proof.
  unfold astype_float32, batched_samples. cbn -[Nat.div].
  f_equal. rewrite map_map. apply map_ext_in.
  intros z Hz. cbn. f_equal. apply normalize_round_stable.
  pose proof (int16_le_range audio) as HF.
  rewrite List.Forall_forall in HF. apply HF. exact Hz.
Qed.

Section SileroProperties.
Variable Engine : Type.
Variable ort_load : string -> string + Engine.
Variable ort_run :
  Silero.InferenceSession Engine -> option (list string) ->
  gmap string ndarray -> (string + list ndarray) * Engine.

Local Abbreviation call := (Silero.__call__ Engine ort_run).
Local Abbreviation reset := (Silero.reset Engine).
Local Abbreviation init := (Silero.__init__ Engine ort_load).
Local Abbreviation reachable := (Silero.reachable Engine ort_load ort_run).
Local Abbreviation feed := (Silero.feed Engine ort_run).

Lemma call_decoded audio self a :
  Silero.decode audio = inr a -> call audio self = call_outcome ort_run self a.
Proof.
  intros Hd. unfold Silero.__call__, call_outcome, bind, Silero.session_run.
  rewrite Hd. cbn [lift ret get result self_after calls].
  destruct (ort_run (Silero.session self) None (Silero.ort_inputs self a))
    as [[what|outs] eng]; cbn; [reflexivity|].
  destruct outs as [|out [|h [|c [|x outs]]]]; reflexivity.
Qed.

Lemma call_undecoded audio self e :
  Silero.decode audio = inl e ->
  call audio self = Outcome (inl e) self [].
Proof.
  intros Hd. unfold Silero.__call__, bind. rewrite Hd. reflexivity.
Qed.

Lemma ort_inputs_lookup (self : Silero.t Engine) a :
  let inputs := Silero.ort_inputs self a in
  inputs !! "input"%string = Some (astype_float32 a)
  /\ inputs !! "h"%string = Some (Silero._h self)
  /\ inputs !! "c"%string = Some (Silero._c self)
  /\ inputs !! "sr"%string = Some (np_array_int64 _RATE)
  /\ dom inputs = ({["input"%string]} ∪ {["h"%string]} ∪ {["c"%string]}
                    ∪ {["sr"%string]} : gset string).
Proof.
  unfold Silero.ort_inputs. cbn zeta.
  repeat split; by simplify_map_eq.
Qed.

Lemma squeeze_no_singleton a : Forall (fun n => n <> 1%nat) (shape (squeeze a)).
Proof.
  unfold squeeze; cbn. apply List.Forall_forall. intros n Hn.
  apply list_elem_of_In, list_elem_of_filter in Hn. tauto.
Qed.

(** C3. For every frame of even length, [__call__] decodes the frame
    into a one-dimensional array and puts the batch dimension 1 in
    front (shape (1, num_samples)); it runs the session once, on exactly
    the four named inputs [input] (the normalised batched samples,
    float32), [h] and [c] (the stored states) and [sr] (16000 as a
    zero-dimensional int64 array); when the engine returns three arrays,
    the stored [h] and [c] become the second and the third, and the
    first is returned with its axes of length one removed. *)
Theorem detect_steps_even_frame self audio :
  (length audio mod 2 = 0)%nat ->
  let audio_array := batched_samples audio in
  let inputs := Silero.ort_inputs self audio_array in
  let o := call audio self in
  (exists a0, np_frombuffer_int16 audio = inr a0
              /\ shape a0 = [(length audio / 2)%nat])
  /\ Silero.decode audio = inr audio_array
  /\ shape audio_array = [1%nat; (length audio / 2)%nat]
  /\ length (data audio_array) = (length audio / 2)%nat
  /\ dom inputs = ({["input"%string]} ∪ {["h"%string]} ∪ {["c"%string]}
                    ∪ {["sr"%string]} : gset string)
  /\ inputs !! "input"%string = Some audio_array
  /\ nd_dtype audio_array = float32
  /\ inputs !! "h"%string = Some (Silero._h self)
  /\ inputs !! "c"%string = Some (Silero._c self)
  /\ inputs !! "sr"%string
      = Some {| nd_dtype := int64; shape := []; data := [SInt 16000] |}
  /\ calls o = [Silero.mk_run_call (Silero.session self) None inputs]
  /\ match ort_run (Silero.session self) None inputs with
     | (inr [out; h; c], _) =>
         result o = inr (PyArray (squeeze out))
         /\ Silero._h (self_after o) = h
         /\ Silero._c (self_after o) = c
         /\ shape (squeeze out) = filter (fun n => n <> 1%nat) (shape out)
         /\ Forall (fun n => n <> 1%nat) (shape (squeeze out))
         /\ data (squeeze out) = data out
     | (inr outs, _) =>
         result o = inl (UnpackError (length outs))
         /\ Silero._h (self_after o) = Silero._h self
         /\ Silero._c (self_after o) = Silero._c self
     | (inl what, _) =>
         result o = inl (External what)
         /\ Silero._h (self_after o) = Silero._h self
         /\ Silero._c (self_after o) = Silero._c self
     end.
Proof.
  intros Hev audio_array inputs o.
  pose proof (decode_even audio Hev) as Hd.
  pose proof (ort_inputs_lookup self audio_array) as (Hi & Hh & Hc & Hsr & Hdom).
  fold inputs in Hi, Hh, Hc, Hsr, Hdom.
  unfold audio_array in Hi. rewrite astype_batched_samples in Hi.
  split.
  { unfold np_frombuffer_int16. rewrite (proj2 (Nat.eqb_eq _ _) Hev).
    eexists; split; reflexivity. }
  split; [exact Hd|].
  split; [reflexivity|].
  split; [cbn; rewrite length_map; apply int16_le_length|].
  do 6 (split; [first [assumption | reflexivity]|]).
  split.
  - subst o inputs audio_array. rewrite (call_decoded _ _ _ Hd).
    unfold call_outcome.
    destruct (ort_run _ _ _) as [[?|outs] ?].
    + reflexivity.
    + destruct outs as [|out [|h [|c [|x outs]]]]; reflexivity.
  - subst o inputs audio_array. rewrite (call_decoded _ _ _ Hd).
    unfold call_outcome.
    destruct (ort_run _ _ _) as [[?|outs] ?].
    + repeat split.
    + destruct outs as [|out [|h [|c [|x outs]]]]; repeat split.
      apply squeeze_no_singleton.
Qed.

(** C10. The empty buffer is decoded without any exception: no sample,
    then the batch dimension, so that the session is run on an [input]
    of shape (1, 0); what [__call__] then returns or raises is what the
    run and the unpacking of its result give. *)
Theorem empty_frame_reaches_engine self :
  let empty := {| nd_dtype := float32; shape := [1; 0]%nat; data := [] |} in
  let inputs := Silero.ort_inputs self empty in
  let o := call [] self in
  np_frombuffer_int16 []
    = inr {| nd_dtype := int16; shape := [0%nat]; data := [] |}
  /\ Silero.decode [] = inr empty
  /\ inputs !! "input"%string = Some empty
  /\ calls o = [Silero.mk_run_call (Silero.session self) None inputs]
  /\ o = call_outcome ort_run self empty
  /\ result o <> inl MalformedAudioFrame.
Proof.
  intros empty inputs o.
  assert (Hd : Silero.decode [] = inr empty) by reflexivity.
  assert (Ho : o = call_outcome ort_run self empty) by (apply call_decoded; exact Hd).
  split; [reflexivity|]. split; [exact Hd|].
  split; [reflexivity|].
  split; [|split; [exact Ho|]]; rewrite Ho; unfold call_outcome;
    fold inputs; destruct (ort_run (Silero.session self) None inputs)
      as [[?|outs] ?]; try reflexivity; try discriminate;
    destruct outs as [|out [|h [|c [|x outs]]]]; try reflexivity; discriminate.
Qed.

Lemma call_odd audio self :
  (length audio mod 2 <> 0)%nat ->
  call audio self = Outcome (inl MalformedAudioFrame) self [].
Proof.
  intros Hodd. apply call_undecoded, decode_odd. exact Hodd.
Qed.

Lemma zero_state_is_state_tensor : is_state_tensor Silero.zero_state.
Proof. split; reflexivity. Qed.

(** C5. In any state of the detector, [reset] assigns to [_h] and to
    [_c] the all-zero float32 tensor of shape (2,1,64), the value they
    have after construction; it leaves the session as it is, runs
    nothing and raises nothing. *)
Theorem reset_zeroes_state self onnx_path :
  let o := reset self in
  result o = inr tt
  /\ calls o = []
  /\ Silero._h (self_after o) = Silero.zero_state
  /\ Silero._c (self_after o) = Silero.zero_state
  /\ Silero.session (self_after o) = Silero.session self
  /\ Silero.zero_state
      = {| nd_dtype := float32; shape := [2; 1; 64]%nat;
           data := repeat (SFlt (S754_zero false)) 128 |}
  /\ match init onnx_path with
     | inr self0 =>
         Silero._h self0 = Silero._h (self_after o)
         /\ Silero._c self0 = Silero._c (self_after o)
     | inl _ => True
     end.
Proof.
  cbn zeta. repeat split; try reflexivity.
  unfold Silero.__init__, Silero.new_InferenceSession.
  destruct (external (ort_load (str onnx_path))); [exact I|].
  split; reflexivity.
Qed.



Lemma init_outcome onnx_path :
  match init onnx_path with
  | inr self0 =>
      ort_load (str onnx_path) = inr (Silero.ort_state (Silero.session self0))
      /\ Silero.intra_op_num_threads (Silero.session self0) = Some 1
      /\ Silero.inter_op_num_threads (Silero.session self0) = Some 1
      /\ Silero._h self0 = Silero.zero_state
      /\ Silero._c self0 = Silero.zero_state
  | inl e => exists what, ort_load (str onnx_path) = inl what /\ e = External what
  end.
Proof.
  unfold Silero.__init__, Silero.new_InferenceSession.
  destruct (ort_load (str onnx_path)) as [what|eng]; cbn.
  - exists what; split; reflexivity.
  - repeat split.
Qed.



Lemma call_keeps_state_shape audio self :
  keeps_state_shape ort_run ->
  is_state_tensor (Silero._h self) -> is_state_tensor (Silero._c self) ->
  is_state_tensor (Silero._h (self_after (call audio self)))
  /\ is_state_tensor (Silero._c (self_after (call audio self))).
Proof.
  intros Hk Hh Hc.
  destruct (Silero.decode audio) as [e|a] eqn:Hd.
  - rewrite (call_undecoded _ _ _ Hd). split; assumption.
  - rewrite (call_decoded _ _ _ Hd). unfold call_outcome.
    destruct (ort_inputs_lookup self a) as (_ & Hih & Hic & _).
    destruct (ort_run _ _ _) as [[?|outs] eng] eqn:Hrun;
      [split; assumption|].
    destruct outs as [|out [|h [|c [|x outs]]]]; try (split; assumption).
    exact (Hk _ _ _ _ _ _ _ _ _ Hih Hic Hh Hc Hrun).
Qed.

(** C4 (amended). Provided the engine hands back states of shape
    (2,1,64) and dtype float32 whenever it is run on such states, both
    [_h] and [_c] have shape (2,1,64) and dtype float32 in every state
    the detector reaches: after construction, after every [reset] and
    after every [__call__]. *)
Theorem state_tensors_keep_shape self :
  keeps_state_shape ort_run ->
  reachable self ->
  is_state_tensor (Silero._h self) /\ is_state_tensor (Silero._c self).
Proof.
  intros Hk. induction 1 as [onnx_path self Hinit | self Hr IH | self audio Hr IH].
  - pose proof (init_outcome onnx_path) as H. rewrite Hinit in H.
    destruct H as (_ & _ & _ & -> & ->).
    split; apply zero_state_is_state_tensor.
  - split; apply zero_state_is_state_tensor.
  - destruct IH as [Hh Hc]. apply call_keeps_state_shape; assumption.
Qed.

Lemma ort_inputs_state (a b : Silero.t Engine) x :
  Silero._h a = Silero._h b -> Silero._c a = Silero._c b ->
  Silero.ort_inputs a x = Silero.ort_inputs b x.
Proof. unfold Silero.ort_inputs. intros -> ->. reflexivity. Qed.

Lemma call_same_state audio (a b : Silero.t Engine) :
  deterministic ort_run ->
  Silero._h a = Silero._h b -> Silero._c a = Silero._c b ->
  result (call audio a) = result (call audio b)
  /\ Silero._h (self_after (call audio a)) = Silero._h (self_after (call audio b))
  /\ Silero._c (self_after (call audio a)) = Silero._c (self_after (call audio b)).
Proof.
  intros Hdet Hh Hc.
  destruct (Silero.decode audio) as [e|x] eqn:Hd.
  - rewrite !(call_undecoded _ _ _ Hd). cbn. auto.
  - rewrite !(call_decoded _ _ _ Hd). unfold call_outcome.
    rewrite (ort_inputs_state a b x Hh Hc).
    pose proof (Hdet (Silero.session a) (Silero.session b) None
                  (Silero.ort_inputs b x)) as Hfst.
    destruct (ort_run (Silero.session a) _ _) as [ra enga].
    destruct (ort_run (Silero.session b) _ _) as [rb engb].
    cbn in Hfst. subst rb.
    destruct ra as [?|outs]; [cbn; auto|].
    destruct outs as [|out [|h [|c [|y outs]]]]; cbn; auto.
Qed.

Lemma feed_same_state frames : forall a b : Silero.t Engine,
  deterministic ort_run ->
  Silero._h a = Silero._h b -> Silero._c a = Silero._c b ->
  fst (feed frames a) = fst (feed frames b).
Proof.
  induction frames as [|audio rest IH]; intros a b Hdet Hh Hc; [reflexivity|].
  destruct (call_same_state audio a b Hdet Hh Hc) as (Hr & Hh' & Hc').
  cbn [Silero.feed].
  specialize (IH _ _ Hdet Hh' Hc').
  destruct (feed rest (self_after (call audio a))) as [rsa sa].
  destruct (feed rest (self_after (call audio b))) as [rsb sb].
  cbn in *. congruence.
Qed.

(** C6. With an engine that is a deterministic function of its inputs:
    [reset], then the frames, then [reset] and the same frames again,
    gives the same sequence of outputs both times; and so does [reset]
    and the same frames on any other state of the detector. *)
Theorem reset_then_feed_is_repeatable self other frames :
  deterministic ort_run ->
  let run1 := feed frames (self_after (reset self)) in
  let run2 := feed frames (self_after (reset (snd run1))) in
  fst run1 = fst run2
  /\ fst run1 = fst (feed frames (self_after (reset other))).
Proof.
  intros Hdet run1 run2.
  split; apply feed_same_state; try exact Hdet; reflexivity.
Qed.

Lemma call_returns audio self v :
  result (call audio self) = inr v ->
  exists a out h c eng,
    Silero.decode audio = inr a
    /\ ort_run (Silero.session self) None (Silero.ort_inputs self a)
       = (inr [out; h; c], eng)
    /\ v = PyArray (squeeze out).
Proof.
  destruct (Silero.decode audio) as [e|a] eqn:Hd.
  - rewrite (call_undecoded _ _ _ Hd). discriminate.
  - rewrite (call_decoded _ _ _ Hd). unfold call_outcome.
    destruct (ort_run _ _ _) as [[?|outs] eng] eqn:Hrun; [discriminate|].
    destruct outs as [|out [|h [|c [|y outs]]]]; try discriminate.
    cbn. intros [= <-]. exists a, out, h, c, eng. auto.
Qed.
End SileroProperties.

Section WebrtcProperties.
Variable Vad : Type.
Variable Vad_new : Vad.
Variable Vad_set_mode : Vad -> Z -> string + Vad.
Variable Vad_is_speech : Vad -> bytes -> Z -> (string + bool) * Vad.

Local Abbreviation wcall := (Webrtc.__call__ Vad Vad_is_speech).
Local Abbreviation wreset := (Webrtc.reset Vad).

Lemma webrtc_call_outcome audio (self : Webrtc.t Vad) :
  wcall audio self =
  let '(r, v) := Vad_is_speech (Webrtc.vad self) audio 16000 in
  Outcome
    match r with
    | inl what => inl (External what)
    | inr true => inr (PyFloat F64.one)
    | inr false => inr (PyFloat F64.zero)
    end
    (Webrtc.mk v)
    [Webrtc.mk_is_speech_call (Webrtc.vad self) audio 16000].
Proof.
  unfold Webrtc.__call__, bind, Webrtc.vad_is_speech, _RATE.
  destruct (Vad_is_speech (Webrtc.vad self) audio 16000) as [[what|[|]] v];
    reflexivity.
Qed.

(** C8. For every frame the WebRTC detector hands the raw bytes and the
    sample rate 16000 to the classifier, once; it returns 1.0 when the
    classifier answers speech and 0.0 when it answers no speech, and no
    other value; what the classifier raises goes through.  Its [reset]
    is the inherited one: it returns, calls nothing and leaves the
    detector as it is. *)
Theorem webrtc_detect_and_reset audio (self : Webrtc.t Vad) :
  let o := wcall audio self in
  calls o = [Webrtc.mk_is_speech_call (Webrtc.vad self) audio 16000]
  /\ match fst (Vad_is_speech (Webrtc.vad self) audio 16000) with
     | inr true => result o = inr (PyFloat F64.one)
     | inr false => result o = inr (PyFloat F64.zero)
     | inl what => result o = inl (External what)
     end
  /\ ((exists what, result o = inl (External what))
      \/ result o = inr (PyFloat F64.one) \/ result o = inr (PyFloat F64.zero))
  /\ represents F64.one 1 /\ represents F64.zero 0
  /\ wreset self = Outcome (inr tt) self []
  /\ @vad_reset _ _ (Webrtc.detector Vad Vad_is_speech) self
     = Outcome (inr tt) self [].
Proof.
  cbn zeta. rewrite webrtc_call_outcome.
  destruct (Vad_is_speech (Webrtc.vad self) audio 16000) as [[what|[|]] v];
    cbn [fst result calls]; repeat split; eauto.
Qed.
End WebrtcProperties.

(** C7. On a buffer whose length is not a multiple of 2 the Silero
    detector fails with MalformedAudioFrame, raised where the buffer is
    read as 16-bit samples; the session is not run and the detector is
    as before the call.  The WebRTC detector has no decoding of its own:
    it hands the buffer to the classifier as it is, and what the
    classifier answers or raises is the outcome. *)
Theorem odd_length_frame_is_malformed
    Engine ort_run Vad Vad_is_speech
    (self : Silero.t Engine) (w : Webrtc.t Vad) audio :
  (length audio mod 2 <> 0)%nat ->
  let o := Silero.__call__ Engine ort_run audio self in
  let ow := Webrtc.__call__ Vad Vad_is_speech audio w in
  np_frombuffer_int16 audio = inl MalformedAudioFrame
  /\ result o = inl MalformedAudioFrame
  /\ self_after o = self
  /\ calls o = []
  /\ calls ow = [Webrtc.mk_is_speech_call (Webrtc.vad w) audio 16000]
  /\ result ow
     = match fst (Vad_is_speech (Webrtc.vad w) audio 16000) with
       | inl what => inl (External what)
       | inr speech => inr (PyFloat (if speech then F64.one else F64.zero))
       end.
Proof.
  intros Hodd o ow.
  assert (Hn : np_frombuffer_int16 audio = inl MalformedAudioFrame).
  { unfold np_frombuffer_int16.
    rewrite (proj2 (Nat.eqb_neq _ _) Hodd). reflexivity. }
  subst o ow. rewrite (call_odd _ _ _ _ Hodd), webrtc_call_outcome.
  destruct (Vad_is_speech (Webrtc.vad w) audio 16000) as [[what|[|]] v];
    repeat split; exact Hn.
Qed.

(** C2. In [__call__] every decoded 16-bit sample is divided, in
    binary32, by 32767.0 (the float that stands for 32767 exactly), and
    the quotient is [z/32767] up to one rounding to nearest.  For the frame
    of the one sample -32768 the normalised value is the binary32 quotient
    of -32768 by 32767, the float -8388864 * 2^-23: it is strictly less
    than -1.0 and within 2^-24, half a unit in the last place, of the
    rational -32768/32767; dividing by 32768 would have given -1.0. *)
Theorem samples_divided_by_32767 Engine (self : Silero.t Engine) audio :
  (length audio mod 2 = 0)%nat ->
  (exists a, Silero.decode audio = inr a
     /\ Silero.ort_inputs self a !! "input"%string = Some a
     /\ data a = map (fun z => SFlt (F32.div (F32.of_Z z) (F32.of_Z 32767)))
                     (int16_le audio))
  /\ represents (F32.of_Z 32767) 32767
  /\ Forall (fun z => -32768 <= z <= 32767
               /\ exists q, F2Q (F32.div (F32.of_Z z) (F32.of_Z 32767)) = Some q
                    /\ (Qabs (q * 32767 - inject_Z z)
                        <= Qabs (inject_Z z) * (1 # 16777216))%Q)
            (int16_le audio)
  /\ int16_le [x00; x80] = [-32768]
  /\ Silero.decode [x00; x80]
     = inr {| nd_dtype := float32; shape := [1; 1]%nat;
              data := [SFlt (F32.div (F32.of_Z (-32768)) (F32.of_Z 32767))] |}
  /\ F32.div (F32.of_Z (-32768)) (F32.of_Z 32767) = S754_finite true 8388864 (-23)
  /\ represents (S754_finite true 8388864 (-23)) (- (8388864 # 8388608))
  /\ (- (8388864 # 8388608) < - (1))%Q
  /\ (Qabs (- (8388864 # 8388608) - (-32768 # 32767)) <= 1 # 16777216)%Q
  /\ F32.div (F32.of_Z (-32768)) (F32.of_Z 32768) = F32.of_Z (-1)
  /\ represents (F32.of_Z (-1)) (- (1)).
Proof.
  intros Hev. split.
  { exists (batched_samples audio).
    split; [apply decode_even; exact Hev|]. split; [|reflexivity].
    destruct (ort_inputs_lookup Engine self (batched_samples audio)) as [Hi _].
    rewrite astype_batched_samples in Hi. exact Hi. }
  split; [vm_compute; reflexivity|].
  split.
  { eapply List.Forall_impl; [|apply int16_le_range].
    intros z Hz. split; [exact Hz|].
    pose proof (normalize_well_rounded z Hz) as Hw. unfold well_rounded in Hw.
    fold (normalize z).
    destruct (F2Q (normalize z)) as [q|]; [|discriminate].
    exists q. split; [reflexivity|]. apply Qle_bool_iff. exact Hw. }
  split; [reflexivity|].
  split; [reflexivity|].
  split; [vm_compute; reflexivity|].
  split; [vm_compute; reflexivity|].
  split; [vm_compute; reflexivity|].
  split; [vm_compute; discriminate|].
  split; vm_compute; reflexivity.
Qed.

Lemma samples_divided_by_32767_witness :
  (length [x00; x80] mod 2 = 0)%nat
  /\ exists a, Silero.decode [x00; x80] = inr a
     /\ Silero.ort_inputs echo_self a !! "input"%string = Some a
     /\ data a = map (fun z => SFlt (F32.div (F32.of_Z z) (F32.of_Z 32767)))
                     (int16_le [x00; x80]).
Proof.
  split; [reflexivity|].
  exact (proj1 (samples_divided_by_32767 _ echo_self [x00; x80] eq_refl)).
Defined.

Lemma echo_self_init :
  Silero.__init__ EchoEngine.Engine EchoEngine.load (PathStr "silero_vad.onnx")
  = inr echo_self.
Proof. reflexivity. Qed.

Lemma other_self_init :
  Silero.__init__ OtherEngine.Engine OtherEngine.load (PathObj "model.onnx")
  = inr other_self.
Proof. reflexivity. Qed.

Lemma checking_self_init :
  Webrtc.__init__ FrameCheckingVad.Vad FrameCheckingVad.new
    FrameCheckingVad.set_mode None = inr checking_self.
Proof. reflexivity. Qed.

(** ** The detectors at work *)

Lemma EchoEngine_keeps_state_shape : keeps_state_shape EchoEngine.run.
Proof.
  intros sess names inputs hi ci out h c eng Hh Hc Hhi Hci Hrun.
  unfold EchoEngine.run in Hrun. rewrite Hh, Hc in Hrun.
  destruct (inputs !! "input"%string); [|discriminate].
  injection Hrun as <- <- <- <-.
  split; [split; reflexivity|exact Hci].
Qed.

Lemma EchoEngine_deterministic : deterministic EchoEngine.run.
Proof.
  intros s1 s2 names inputs. unfold EchoEngine.run.
  destruct (inputs !! "input"%string), (inputs !! "h"%string),
    (inputs !! "c"%string); reflexivity.
Qed.

(** C1 (amended). Whenever [__call__] returns on a frame: the WebRTC
    detector's value is the float 1.0 or the float 0.0, hence a
    probability in [0.0, 1.0]; the Silero detector's value is the first
    of the three arrays the engine returned for the normalised frame, with
    its axes of length one removed, and it is a probability in [0.0, 1.0]
    exactly when that array is one. *)
Theorem detect_value_when_it_returns
    Engine ort_run Vad Vad_is_speech
    (s : Silero.t Engine) (w : Webrtc.t Vad) audio v :
  (result (@vad_call _ _ (Webrtc.detector Vad Vad_is_speech) audio w) = inr v ->
     (v = PyFloat F64.one \/ v = PyFloat F64.zero)
     /\ is_probability v = true)
  /\ (result (@vad_call _ _ (Silero.detector Engine ort_run) audio s) = inr v ->
     exists out h c eng,
       ort_run (Silero.session s) None
         (Silero.ort_inputs s (batched_samples audio)) = (inr [out; h; c], eng)
       /\ v = PyArray (squeeze out)
       /\ is_probability v = is_probability (PyArray out)).
Proof.
  cbn [vad_call Webrtc.detector Silero.detector]. split.
  - rewrite webrtc_call_outcome.
    destruct (Vad_is_speech (Webrtc.vad w) audio 16000) as [[what|[|]] vad'];
      cbn [result]; intros [= <-]; split; auto.
  - intros Hv.
    destruct (call_returns _ _ _ _ _ Hv) as (a & out & h & c & eng & Hd & Hrun & ->).
    assert (Hev : (length audio mod 2 = 0)%nat).
    { destruct (Nat.eq_dec (length audio mod 2)%nat 0%nat) as [E|E]; [exact E|].
      rewrite (decode_odd _ E) in Hd. discriminate. }
    rewrite (decode_even _ Hev) in Hd. injection Hd as <-.
    exists out, h, c, eng. repeat split. exact Hrun.
Qed.

Lemma detect_value_when_it_returns_witness :
  is_probability (PyFloat F64.zero) = true
  /\ exists out h c eng,
       EchoEngine.run (Silero.session echo_self) None
         (Silero.ort_inputs echo_self (batched_samples [x00; x80]))
       = (inr [out; h; c], eng)
       /\ PyArray (np_full_f32 [] F32.zero) = PyArray (squeeze out)
       /\ is_probability (PyArray (np_full_f32 [] F32.zero))
          = is_probability (PyArray out).
Proof.
  split.
  - apply (proj1 (detect_value_when_it_returns
                    EchoEngine.Engine EchoEngine.run
                    FrameCheckingVad.Vad FrameCheckingVad.is_speech
                    echo_self checking_self silence_10ms (PyFloat F64.zero))).
    vm_compute. reflexivity.
  - apply (proj2 (detect_value_when_it_returns
                    EchoEngine.Engine EchoEngine.run
                    FrameCheckingVad.Vad FrameCheckingVad.is_speech
                    echo_self checking_self [x00; x80]
                    (PyArray (np_full_f32 [] F32.zero)))).
    vm_compute. reflexivity.
Defined.

(** On the two-byte frame of one zero sample, which has even length: the
    WebRTC detector over a classifier that checks the frame length raises
    instead of returning, and the Silero detector over an engine whose
    first output is 2.0 returns 2.0. *)
Lemma detect_outside_unit_interval :
  (length [x00; x00] mod 2 = 0)%nat
  /\ Webrtc.__init__ FrameCheckingVad.Vad FrameCheckingVad.new
       FrameCheckingVad.set_mode None = inr checking_self
  /\ Silero.__init__ OtherEngine.Engine OtherEngine.load (PathObj "model.onnx")
     = inr other_self
  /\ result (checking_call [x00; x00] checking_self)
     = inl (External "Error while processing frame")
  /\ result (other_call [x00; x00] other_self)
     = inr (PyArray (np_full_f32 [] (F32.of_Z 2)))
  /\ is_probability (PyArray (np_full_f32 [] (F32.of_Z 2))) = false.
Proof. repeat split. Qed.

Lemma detect_steps_even_frame_witness :
  (length [x00; x80] mod 2 = 0)%nat
  /\ calls (echo_call [x00; x80] echo_self)
     = [Silero.mk_run_call (Silero.session echo_self) None
          (Silero.ort_inputs echo_self (batched_samples [x00; x80]))].
Proof.
  split; [reflexivity|].
  pose proof (detect_steps_even_frame EchoEngine.Engine EchoEngine.run
                echo_self [x00; x80] eq_refl) as H.
  cbn zeta in H. apply H.
Defined.

Lemma odd_length_frame_is_malformed_witness :
  (length [x00; x80; x01] mod 2 <> 0)%nat
  /\ result (echo_call [x00; x80; x01] echo_self) = inl MalformedAudioFrame
  /\ self_after (echo_call [x00; x80; x01] echo_self) = echo_self.
Proof.
  assert (Hodd : (length [x00; x80; x01] mod 2 <> 0)%nat) by (simpl; lia).
  split; [exact Hodd|].
  pose proof (odd_length_frame_is_malformed EchoEngine.Engine EchoEngine.run
                FrameCheckingVad.Vad FrameCheckingVad.is_speech
                echo_self checking_self [x00; x80; x01] Hodd) as H.
  cbn zeta in H. split; apply H.
Defined.

(** The detector over [EchoEngine] after construction and one frame. *)
Lemma echo_reachable_after_call :
  echo_reachable (self_after (echo_call [x00; x80] echo_self)).
Proof.
  apply Silero.reachable_call.
  apply (Silero.reachable_init _ _ _ (PathStr "silero_vad.onnx")).
  reflexivity.
Defined.


Lemma state_tensors_keep_shape_witness :
  keeps_state_shape EchoEngine.run
  /\ echo_reachable (self_after (echo_call [x00; x80] echo_self))
  /\ is_state_tensor (Silero._h (self_after (echo_call [x00; x80] echo_self)))
  /\ is_state_tensor (Silero._c (self_after (echo_call [x00; x80] echo_self))).
Proof.
  split; [exact EchoEngine_keeps_state_shape|].
  split; [exact echo_reachable_after_call|].
  exact (state_tensors_keep_shape EchoEngine.Engine EchoEngine.load
           EchoEngine.run _ EchoEngine_keeps_state_shape
           echo_reachable_after_call).
Defined.

(** After construction and one [__call__] on a frame of even length, over
    an engine that hands back states of one entry, [_h] and [_c] have
    shape (1). *)
Lemma state_shape_lost_with_other_engine :
  Silero.reachable OtherEngine.Engine OtherEngine.load OtherEngine.run
    (self_after (other_call [x00; x00] other_self))
  /\ Silero.__init__ OtherEngine.Engine OtherEngine.load (PathObj "model.onnx")
     = inr other_self
  /\ (length [x00; x00] mod 2 = 0)%nat
  /\ result (other_call [x00; x00] other_self)
     = inr (PyArray (np_full_f32 [] (F32.of_Z 2)))
  /\ shape (Silero._h (self_after (other_call [x00; x00] other_self))) = [1%nat]
  /\ ~ is_state_tensor (Silero._h (self_after (other_call [x00; x00] other_self)))
  /\ ~ is_state_tensor (Silero._c (self_after (other_call [x00; x00] other_self))).
Proof.
  split.
  { apply Silero.reachable_call.
    apply (Silero.reachable_init _ _ _ (PathObj "model.onnx")). reflexivity. }
  repeat split; intros [H _]; discriminate H.
Qed.

Lemma reset_then_feed_is_repeatable_witness :
  deterministic EchoEngine.run
  /\ (let run1 :=
        echo_feed stream (self_after (Silero.reset EchoEngine.Engine echo_self)) in
      let run2 :=
        echo_feed stream (self_after (Silero.reset EchoEngine.Engine (snd run1))) in
      fst run1 = fst run2).
Proof.
  split; [exact EchoEngine_deterministic|].
  exact (proj1 (reset_then_feed_is_repeatable EchoEngine.Engine EchoEngine.run
                  echo_self echo_self stream EchoEngine_deterministic)).
Defined.

(** Without [reset] the second pass over the stream starts from the state
    the first one left: its outputs differ. *)
Example state_leak_is_observable :
  let run1 := echo_feed stream echo_self in
  let run2 := echo_feed stream (snd run1) in
  fst run1 <> fst run2
  /\ fst run1
     = [inr (PyArray (np_full_f32 [] F32.zero));
        inr (PyArray (np_full_f32 [] F32.one));
        inl MalformedAudioFrame;
        inr (PyArray (np_full_f32 [] F32.zero))].
Proof. cbn zeta. split; [vm_compute; discriminate|vm_compute; reflexivity]. Qed.

(** ** Decoding and normalisation, further *)

Lemma converts_exactly_all :
  forall_from (-32768) (Z.to_nat 65536) converts_exactly = true.
Proof. vm_cast_no_check (eq_refl true). Qed.

Lemma increasing_from_all :
  increasing_from (-32768) (Z.to_nat 65536) (- (2)) = true.
Proof. vm_cast_no_check (eq_refl true). Qed.

Lemma byte_pair_checks_all : forall_from 0 256 byte_pair_checks = true.
Proof. vm_cast_no_check (eq_refl true). Qed.

Lemma increasing_from_spec n : forall lo prev,
  increasing_from lo n prev = true ->
  (forall z, lo <= z < lo + Z.of_nat n ->
     F2Q (normalize z) = Some (normalize_Q z)
     /\ within_bounds z (normalize_Q z) = true)
  /\ (forall z, lo <= z -> z + 1 < lo + Z.of_nat n ->
        (normalize_Q z < normalize_Q (z + 1))%Q)
  /\ (n <> O -> (prev < normalize_Q lo)%Q).
Proof.
  induction n as [|n IH]; intros lo prev H.
  - split; [|split]; intros; first [lia | congruence].
  - cbn [increasing_from] in H.
    destruct (F2Q (normalize lo)) as [q|] eqn:Hq; [|discriminate].
    assert (HQ : normalize_Q lo = q) by (unfold normalize_Q; rewrite Hq; reflexivity).
    apply andb_true_iff in H as [H Htail].
    apply andb_true_iff in H as [Hprev Hb].
    destruct (IH _ _ Htail) as (IHb & IHi & IHh).
    assert (Hlt : (prev < q)%Q).
    { apply Qnot_le_lt. intros Hle. apply Qle_bool_iff in Hle.
      rewrite Hle in Hprev. discriminate. }
    split; [|split].
    + intros z Hz. destruct (Z.eq_dec z lo) as [->|Hne].
      * rewrite HQ. split; [exact Hq|exact Hb].
      * apply IHb. lia.
    + intros z Hz1 Hz2. destruct (Z.eq_dec z lo) as [->|Hne].
      * rewrite HQ. apply IHh. lia.
      * apply IHi; lia.
    + intros _. rewrite HQ. exact Hlt.
Qed.

Lemma normalize_within_bounds z :
  -32768 <= z <= 32767 -> within_bounds z (normalize_Q z) = true.
Proof.
  intros Hz. apply (proj1 (increasing_from_spec _ _ _ increasing_from_all)).
  lia.
Qed.

Lemma normalize_finite z :
  -32768 <= z <= 32767 -> F2Q (normalize z) = Some (normalize_Q z).
Proof.
  intros Hz. apply (proj1 (increasing_from_spec _ _ _ increasing_from_all)).
  lia.
Qed.

Lemma normalize_increasing_step z :
  -32768 <= z < 32767 -> (normalize_Q z < normalize_Q (z + 1))%Q.
Proof.
  intros Hz.
  apply (proj1 (proj2 (increasing_from_spec _ _ _ increasing_from_all))); lia.
Qed.

Lemma normalize_increasing z1 z2 :
  -32768 <= z1 -> z1 < z2 -> z2 <= 32767 ->
  (normalize_Q z1 < normalize_Q z2)%Q.
Proof.
  intros H1 H12 H2.
  replace z2 with (z1 + 1 + Z.of_nat (Z.to_nat (z2 - z1 - 1))) in * by lia.
  generalize dependent (Z.to_nat (z2 - z1 - 1)). intros k _.
  induction k as [|k IH]; intros Hk.
  - rewrite Z.add_0_r. apply normalize_increasing_step. lia.
  - eapply Qlt_trans; [apply IH; lia|].
    replace (z1 + 1 + Z.of_nat (S k)) with (z1 + 1 + Z.of_nat k + 1) by lia.
    apply normalize_increasing_step. lia.
Qed.


Lemma within_bounds_spec z q :
  within_bounds z q = true ->
  (least_normalized <= q)%Q /\ (q <= 1)%Q /\ ((q < - (1))%Q -> z = -32768).
Proof.
  unfold within_bounds. intros H.
  apply andb_true_iff in H as [H H3]. apply andb_true_iff in H as [H1 H2].
  apply Qle_bool_iff in H1. apply Qle_bool_iff in H2.
  split; [exact H1|]. split; [exact H2|].
  intros Hlt. apply orb_true_iff in H3 as [H3|H3].
  - apply Qle_bool_iff in H3. exfalso. exact (Qlt_not_le _ _ Hlt H3).
  - apply Z.eqb_eq. exact H3.
Qed.

(** X10. For a frame of even length every entry of the decoded array is
    a finite float between the value of the sample -32768 (that is
    -8388864 * 2^-23) and 1.0; the value is below -1.0 for the sample
    -32768 only; the sample 32767 gives 1.0 and the sample 0 gives +0.0. *)
Theorem input_entries_are_bounded audio :
  (length audio mod 2 = 0)%nat ->
  (exists a, Silero.decode audio = inr a
     /\ Forall (fun x => exists q, scalar_Q x = Some q
                  /\ (least_normalized <= q)%Q /\ (q <= 1)%Q) (data a))
  /\ Forall (fun z => exists q, F2Q (normalize z) = Some q
               /\ ((q < - (1))%Q <-> z = -32768)) (int16_le audio)
  /\ represents (normalize 32767) 1
  /\ represents (normalize (-32768)) least_normalized
  /\ normalize 0 = S754_zero false.
Proof.
  intros Hev. split; [|split; [|split; [|split]]].
  - exists (batched_samples audio). split; [apply decode_even; exact Hev|].
    cbn [data batched_samples]. apply List.Forall_map.
    eapply List.Forall_impl; [|apply int16_le_range].
    intros z Hz. exists (normalize_Q z). cbn [scalar_Q].
    split; [apply normalize_finite; exact Hz|].
    destruct (within_bounds_spec _ _ (normalize_within_bounds z Hz)) as (H1 & H2 & _).
    split; assumption.
  - eapply List.Forall_impl; [|apply int16_le_range].
    intros z Hz. exists (normalize_Q z).
    split; [apply normalize_finite; exact Hz|]. split.
    + apply (within_bounds_spec _ _ (normalize_within_bounds z Hz)).
    + intros ->. vm_compute. reflexivity.
  - vm_compute. reflexivity.
  - vm_compute. reflexivity.
  - vm_compute. reflexivity.
Qed.

Lemma input_entries_are_bounded_witness :
  (length [xff; x7f; x00; x80] mod 2 = 0)%nat
  /\ exists a, Silero.decode [xff; x7f; x00; x80] = inr a
     /\ Forall (fun x => exists q, scalar_Q x = Some q
                  /\ (least_normalized <= q)%Q /\ (q <= 1)%Q) (data a).
Proof.
  split; [reflexivity|].
  exact (proj1 (input_entries_are_bounded [xff; x7f; x00; x80] eq_refl)).
Defined.

(** X11. Normalisation is strictly increasing on the int16 samples: a
    greater sample has a strictly greater value, so that two different
    samples never give the same float. *)
Theorem normalization_is_strictly_increasing z1 z2 :
  -32768 <= z1 -> z1 < z2 -> z2 <= 32767 ->
  exists q1 q2,
    F2Q (normalize z1) = Some q1 /\ F2Q (normalize z2) = Some q2
    /\ (q1 < q2)%Q /\ normalize z1 <> normalize z2.
Proof.
  intros H1 H12 H2. exists (normalize_Q z1), (normalize_Q z2).
  pose proof (normalize_increasing z1 z2 H1 H12 H2) as Hlt.
  split; [apply normalize_finite; lia|]. split; [apply normalize_finite; lia|].
  split; [exact Hlt|].
  intros E. unfold normalize_Q in Hlt. rewrite E in Hlt.
  exact (Qlt_irrefl _ Hlt).
Qed.

Lemma normalization_is_strictly_increasing_witness :
  exists q1 q2,
    F2Q (normalize (-32768)) = Some q1 /\ F2Q (normalize (-32767)) = Some q2
    /\ (q1 < q2)%Q /\ normalize (-32768) <> normalize (-32767).
Proof.
  apply (normalization_is_strictly_increasing (-32768) (-32767)); lia.
Defined.

Lemma converts_exactly_spec z :
  -32768 <= z <= 32767 ->
  exists q, F2Q (F32.of_Z z) = Some q /\ (q == inject_Z z)%Q.
Proof.
  intros Hz.
  pose proof (forall_from_spec _ _ _ converts_exactly_all z ltac:(lia)) as H.
  unfold converts_exactly in H.
  destruct (F2Q (F32.of_Z z)) as [q|]; [|discriminate].
  exists q. split; [reflexivity|]. apply Qeq_bool_iff. exact H.
Qed.

(** X12. For a frame of even length, [astype(np.float32)] of the int16
    array is exact: each float stands for the sample it comes from. *)
Theorem int16_to_float32_is_exact audio :
  (length audio mod 2 = 0)%nat ->
  exists a0, np_frombuffer_int16 audio = inr a0
    /\ nd_dtype a0 = int16
    /\ data a0 = map SInt (int16_le audio)
    /\ Forall2 (fun z x => exists q, scalar_Q x = Some q /\ (q == inject_Z z)%Q)
         (int16_le audio) (data (astype_float32 a0)).
Proof.
  intros Hev. unfold np_frombuffer_int16.
  rewrite (proj2 (Nat.eqb_eq _ _) Hev).
  eexists. split; [reflexivity|]. split; [reflexivity|]. split; [reflexivity|].
  cbn [astype_float32 data]. rewrite List.map_map.
  pose proof (int16_le_range audio) as HR.
  induction HR as [|z l Hz _ IH]; cbn [map]; constructor; [|exact IH].
  cbn [to_float32 scalar_Q]. apply converts_exactly_spec. exact Hz.
Qed.

Lemma int16_to_float32_is_exact_witness :
  (length [xff; x7f; x00; x80] mod 2 = 0)%nat
  /\ exists a0, np_frombuffer_int16 [xff; x7f; x00; x80] = inr a0
    /\ nd_dtype a0 = int16
    /\ data a0 = map SInt (int16_le [xff; x7f; x00; x80])
    /\ Forall2 (fun z x => exists q, scalar_Q x = Some q /\ (q == inject_Z z)%Q)
         (int16_le [xff; x7f; x00; x80]) (data (astype_float32 a0)).
Proof.
  split; [reflexivity|].
  exact (int16_to_float32_is_exact [xff; x7f; x00; x80] eq_refl).
Defined.

Lemma sint16_is_sample_of lo hi :
  0 <= lo <= 255 -> 0 <= hi <= 255 ->
  sint16 (Z.lor lo (Z.shiftl hi 8)) = sample_of lo hi.
Proof.
  intros Hlo Hhi.
  pose proof (forall_from_spec _ _ _ byte_pair_checks_all hi ltac:(lia)) as H.
  unfold byte_pair_checks in H.
  pose proof (forall_from_spec _ _ _ H lo ltac:(lia)) as H'.
  apply Z.eqb_eq. exact H'.
Qed.

Lemma sample_of_cases lo hi :
  0 <= lo <= 255 -> 0 <= hi <= 255 ->
  sample_of lo hi = if hi <? 128 then lo + 256 * hi else lo + 256 * hi - 65536.
Proof.
  intros Hlo Hhi. unfold sample_of.
  destruct (hi <? 128) eqn:E.
  - apply Z.ltb_lt in E.
    rewrite Z.mod_small by lia. lia.
  - apply Z.ltb_ge in E.
    replace (lo + 256 * hi + 32768) with (lo + 256 * hi - 32768 + 1 * 65536) by lia.
    rewrite Z.mod_add by lia. rewrite Z.mod_small by lia. lia.
Qed.

Lemma byte_val_inj b1 b2 : byte_val b1 = byte_val b2 -> b1 = b2.
Proof.
  unfold byte_val. intros H. apply N2Z.inj in H.
  pose proof (Byte.of_to_N b1) as H1. pose proof (Byte.of_to_N b2) as H2.
  rewrite H in H1. congruence.
Qed.

(** X13. Two bytes are read as one sample, low byte first:
    [lo + 256 * hi], less 65536 when the high byte is 128 or more. *)
Theorem samples_are_little_endian lo hi rest :
  let l := byte_val lo in
  let h := byte_val hi in
  int16_le (lo :: hi :: rest)
  = (if h <? 128 then l + 256 * h else l + 256 * h - 65536) :: int16_le rest.
Proof.
  cbn zeta. cbn [int16_le]. f_equal.
  rewrite sint16_is_sample_of by apply byte_val_range.
  apply sample_of_cases; apply byte_val_range.
Qed.

Lemma even_length_tail {A} (x y : A) l :
  (length (x :: y :: l) mod 2 = 0)%nat -> (length l mod 2 = 0)%nat.
Proof.
  cbn [length]. replace (S (S (length l))) with (length l + 1 * 2)%nat by lia.
  rewrite Nat.Div0.mod_add. trivial.
Qed.

Lemma even_length_app {A} (a b : list A) :
  (length a mod 2 = 0)%nat -> (length b mod 2 = 0)%nat ->
  (length (a ++ b) mod 2 = 0)%nat
  /\ (length (a ++ b) / 2 = length a / 2 + length b / 2)%nat.
Proof.
  intros Ha Hb. rewrite length_app.
  pose proof (Nat.div_mod_eq (length a) 2) as Ea.
  pose proof (Nat.div_mod_eq (length b) 2) as Eb.
  rewrite Ha in Ea. rewrite Hb in Eb.
  replace (length a + length b)%nat
    with (0 + (length a / 2 + length b / 2) * 2)%nat by lia.
  rewrite Nat.Div0.mod_add, Nat.div_add by lia. split; reflexivity.
Qed.

Lemma int16_le_app (a b : bytes) :
  (length a mod 2 = 0)%nat -> int16_le (a ++ b) = int16_le a ++ int16_le b.
Proof.
  induction a as [| x | lo hi rest IH] using bytes_pair_ind; intros Hev.
  - reflexivity.
  - discriminate Hev.
  - cbn [app int16_le]. rewrite IH by exact (even_length_tail _ _ _ Hev).
    reflexivity.
Qed.

(** X14. Decoding loses nothing: two buffers of even length with the
    same samples are the same buffer. *)
Theorem decoding_loses_nothing (a : bytes) : forall b : bytes,
  (length a mod 2 = 0)%nat -> (length b mod 2 = 0)%nat ->
  int16_le a = int16_le b -> a = b.
Proof.
  induction a as [| x | lo hi rest IH] using bytes_pair_ind; intros b Ha Hb E.
  - destruct b as [|lo' [|hi' rest']]; [reflexivity|discriminate Hb|].
    discriminate E.
  - discriminate Ha.
  - destruct b as [|lo' [|hi' rest']]; [discriminate E|discriminate Hb|].
    rewrite !samples_are_little_endian in E. cbn zeta in E.
    injection E as Eh Et.
    pose proof (byte_val_range lo). pose proof (byte_val_range hi).
    pose proof (byte_val_range lo'). pose proof (byte_val_range hi').
    assert (byte_val lo = byte_val lo' /\ byte_val hi = byte_val hi') as [El Ehh].
    { destruct (byte_val hi <? 128) eqn:E1; destruct (byte_val hi' <? 128) eqn:E2;
        first [apply Z.ltb_lt in E1 | apply Z.ltb_ge in E1];
        first [apply Z.ltb_lt in E2 | apply Z.ltb_ge in E2]; lia. }
    apply byte_val_inj in El, Ehh. subst lo' hi'.
    do 2 f_equal.
    apply IH; [exact (even_length_tail _ _ _ Ha)|exact (even_length_tail _ _ _ Hb)|exact Et].
Qed.

Lemma decoding_loses_nothing_witness :
  (length [x00; x80] mod 2 = 0)%nat /\ (length [x00; x80] mod 2 = 0)%nat
  /\ int16_le [x00; x80] = int16_le [x00; x80] /\ [x00; x80] = [x00; x80].
Proof.
  do 3 (split; [reflexivity|]).
  exact (decoding_loses_nothing [x00; x80] [x00; x80] eq_refl eq_refl eq_refl).
Defined.

(** X15. Decoding goes through concatenation at sample boundaries: for
    two buffers of even length the decoded array of their concatenation
    has the entries of the first followed by those of the second, in one
    batch. *)
Theorem decoding_distributes_over_chunks (a b : bytes) :
  (length a mod 2 = 0)%nat -> (length b mod 2 = 0)%nat ->
  exists xa xb xab,
    Silero.decode a = inr xa /\ Silero.decode b = inr xb
    /\ Silero.decode (a ++ b) = inr xab
    /\ data xab = data xa ++ data xb
    /\ shape xab = [1; length a / 2 + length b / 2]%nat.
Proof.
  intros Ha Hb. destruct (even_length_app a b Ha Hb) as [Hab Hdiv].
  exists (batched_samples a), (batched_samples b), (batched_samples (a ++ b)).
  rewrite !decode_even by assumption.
  repeat split.
  - cbn [data batched_samples]. rewrite (int16_le_app a b Ha), List.map_app.
    reflexivity.
  - cbn [shape batched_samples]. rewrite Hdiv. reflexivity.
Qed.

Lemma decoding_distributes_over_chunks_witness :
  (length [x00; x80] mod 2 = 0)%nat /\ (length [xff; x7f] mod 2 = 0)%nat
  /\ exists xa xb xab,
    Silero.decode [x00; x80] = inr xa /\ Silero.decode [xff; x7f] = inr xb
    /\ Silero.decode ([x00; x80] ++ [xff; x7f]) = inr xab
    /\ data xab = data xa ++ data xb
    /\ shape xab = [1; length [x00; x80] / 2 + length [xff; x7f] / 2]%nat.
Proof.
  split; [reflexivity|]. split; [reflexivity|].
  exact (decoding_distributes_over_chunks [x00; x80] [xff; x7f] eq_refl eq_refl).
Defined.


(** ** The Silero detector, further *)

Section SileroBehaviour.
Variable Engine : Type.
Variable ort_load : string -> string + Engine.
Variable ort_run :
  Silero.InferenceSession Engine -> option (list string) ->
  gmap string ndarray -> (string + list ndarray) * Engine.

Local Abbreviation call := (Silero.__call__ Engine ort_run).
Local Abbreviation reset := (Silero.reset Engine).
Local Abbreviation init := (Silero.__init__ Engine ort_load).
Local Abbreviation reachable := (Silero.reachable Engine ort_load ort_run).

Lemma call_cases audio self :
  ((length audio mod 2 <> 0)%nat
   /\ call audio self = Outcome (inl MalformedAudioFrame) self [])
  \/ ((length audio mod 2 = 0)%nat
      /\ call audio self = call_outcome ort_run self (batched_samples audio)).
Proof.
  destruct (Nat.eq_dec (length audio mod 2)%nat 0%nat) as [Hev|Hodd].
  - right. split; [exact Hev|]. apply call_decoded, decode_even. exact Hev.
  - left. split; [exact Hodd|]. apply call_odd. exact Hodd.
Qed.

(** X1. A [__call__] that raises, whatever it raises, leaves [_h] and
    [_c] as they were, and the two thread counts of the session too. *)
Theorem call_that_raises_keeps_states self audio e :
  result (Silero.__call__ Engine ort_run audio self) = inl e ->
  let self' := self_after (Silero.__call__ Engine ort_run audio self) in
  Silero._h self' = Silero._h self
  /\ Silero._c self' = Silero._c self
  /\ Silero.intra_op_num_threads (Silero.session self')
     = Silero.intra_op_num_threads (Silero.session self)
  /\ Silero.inter_op_num_threads (Silero.session self')
     = Silero.inter_op_num_threads (Silero.session self).
Proof.
  destruct (call_cases audio self) as [[_ ->]|[_ ->]].
  - intros _. repeat split.
  - unfold call_outcome.
    destruct (ort_run _ _ _) as [[what|outs] eng]; [intros _; repeat split|].
    destruct outs as [|out [|h [|c [|x outs]]]]; cbn [result];
      first [discriminate | intros _; repeat split].
Qed.

(** X2. The exceptions of [__call__]: it raises MalformedAudioFrame
    exactly on the buffers of odd length, and it is exactly on those that
    it does not run the session; it never runs it twice.  The unpacking
    fails only on a frame of even length for which the engine returned a
    number of arrays other than three, and an exception of the engine
    comes out only when the run on that frame raised it. *)
Theorem call_exceptions self audio :
  let o := call audio self in
  let run :=
    fst (ort_run (Silero.session self) None
           (Silero.ort_inputs self (batched_samples audio))) in
  (result o = inl MalformedAudioFrame <-> (length audio mod 2 <> 0)%nat)
  /\ (calls o = [] <-> (length audio mod 2 <> 0)%nat)
  /\ (length (calls o) <= 1)%nat
  /\ (forall n, result o = inl (UnpackError n) ->
        n <> 3%nat /\ (length audio mod 2 = 0)%nat
        /\ exists outs, run = inr outs /\ length outs = n)
  /\ (forall what, result o = inl (External what) ->
        (length audio mod 2 = 0)%nat /\ run = inl what).
Proof.
  cbn zeta.
  destruct (call_cases audio self) as [[Hodd ->]|[Hev ->]]; cbn [result calls].
  - split; [tauto|]. split; [tauto|]. split; [cbn; lia|].
    split; intros; discriminate.
  - unfold call_outcome.
    destruct (ort_run _ _ _) as [[what|outs] eng]; cbn [fst].
    + cbn [result calls].
      split; [split; [discriminate|congruence]|].
      split; [split; [discriminate|congruence]|].
      split; [cbn; lia|].
      split; [intros; discriminate|].
      intros w [= <-]. split; [exact Hev|reflexivity].
    + destruct outs as [|out [|h [|c [|x outs]]]]; cbn [result calls];
        (split; [split; [discriminate|congruence]|]);
        (split; [split; [discriminate|congruence]|]);
        (split; [cbn; lia|]);
        (split; [|intros w Hw; discriminate]);
        intros n Hn; try discriminate; injection Hn as <-;
        (split; [cbn; lia|]); (split; [exact Hev|]);
        eexists; split; reflexivity.
Qed.

(** X3. The recurrence between two calls: when the run on a first frame
    returned [out], [h], [c], the next [__call__] runs the session, as the
    first run left it, with [h] and [c] under the names ["h"] and ["c"]
    and the new frame, normalised, under ["input"]. *)
Theorem next_call_runs_on_returned_states self audio1 audio2 out h c eng :
  (length audio1 mod 2 = 0)%nat ->
  (length audio2 mod 2 = 0)%nat ->
  ort_run (Silero.session self) None
    (Silero.ort_inputs self (batched_samples audio1)) = (inr [out; h; c], eng) ->
  let self1 := self_after (call audio1 self) in
  let inputs2 := Silero.ort_inputs self1 (batched_samples audio2) in
  calls (call audio2 self1)
  = [Silero.mk_run_call (after_run (Silero.session self) eng) None inputs2]
  /\ inputs2 !! "h"%string = Some h
  /\ inputs2 !! "c"%string = Some c
  /\ inputs2 !! "input"%string = Some (batched_samples audio2).
Proof.
  intros Hev1 Hev2 Hrun. cbn zeta.
  assert (Hs1 : self_after (call audio1 self)
                = Silero.mk (after_run (Silero.session self) eng) h c).
  { rewrite (call_decoded _ _ _ _ _ (decode_even _ Hev1)).
    unfold call_outcome. rewrite Hrun. reflexivity. }
  rewrite Hs1. clear Hs1 Hrun.
  rewrite (call_decoded _ _ _ _ _ (decode_even _ Hev2)).
  split.
  - unfold call_outcome.
    destruct (ort_run _ _ _) as [[what|outs] eng2]; [reflexivity|].
    destruct outs as [|o2 [|h2 [|c2 [|x outs]]]]; reflexivity.
  - destruct (ort_inputs_lookup Engine
                (Silero.mk (after_run (Silero.session self) eng) h c)
                (batched_samples audio2)) as (Hi & Hh & Hc & _).
    rewrite astype_batched_samples in Hi. auto.
Qed.

(** X4. The first frame after construction, and the first frame after
    any [reset], is run with all-zero (2,1,64) float32 states under ["h"]
    and ["c"], the normalised frame under ["input"] and 16000 under
    ["sr"]; after construction the session holds what loading the path
    gave. *)
Theorem first_call_runs_on_zero_states onnx_path self0 self audio :
  init onnx_path = inr self0 ->
  (length audio mod 2 = 0)%nat ->
  let zeros :=
    {| nd_dtype := float32; shape := [2; 1; 64]%nat;
       data := repeat (SFlt (S754_zero false)) 128 |} in
  let inputs : gmap string ndarray :=
    <["input"%string := batched_samples audio]>
    (<["h"%string := zeros]>
    (<["c"%string := zeros]>
    (<["sr"%string := np_array_int64 16000]> ∅))) in
  calls (call audio self0)
  = [Silero.mk_run_call (Silero.session self0) None inputs]
  /\ calls (call audio (self_after (reset self)))
     = [Silero.mk_run_call (Silero.session self) None inputs]
  /\ ort_load (str onnx_path) = inr (Silero.ort_state (Silero.session self0)).
Proof.
  intros Hinit Hev zeros inputs.
  pose proof (init_outcome Engine ort_load onnx_path) as H.
  rewrite Hinit in H. destruct H as (Hload & _ & _ & Hh & Hc).
  assert (Hin : forall s : Silero.t Engine,
            Silero._h s = Silero.zero_state -> Silero._c s = Silero.zero_state ->
            calls (call audio s) = [Silero.mk_run_call (Silero.session s) None inputs]).
  { intros s Hsh Hsc.
    rewrite (call_decoded _ _ _ _ _ (decode_even _ Hev)).
    assert (Ei : Silero.ort_inputs s (batched_samples audio) = inputs).
    { unfold Silero.ort_inputs. rewrite astype_batched_samples, Hsh, Hsc.
      reflexivity. }
    unfold call_outcome. rewrite Ei.
    destruct (ort_run _ _ _) as [[what|outs] eng2]; [reflexivity|].
    destruct outs as [|o2 [|h2 [|c2 [|x outs]]]]; reflexivity. }
  split; [apply Hin; assumption|]. split; [|exact Hload].
  apply (Hin (self_after (reset self))); reflexivity.
Qed.

(** X5. [reset] twice is [reset] once, and on a detector that has just
    been constructed [reset] changes nothing. *)
Theorem reset_is_idempotent self onnx_path :
  reset (self_after (reset self)) = reset self
  /\ match init onnx_path with
     | inr self0 => reset self0 = Outcome (inr tt) self0 []
     | inl _ => True
     end.
Proof.
  split; [reflexivity|].
  pose proof (init_outcome Engine ort_load onnx_path) as H.
  destruct (init onnx_path) as [e|self0]; [exact I|].
  destruct H as (_ & _ & _ & Hh & Hc).
  destruct self0 as [sess h c]. cbn in Hh, Hc. subst h c. reflexivity.
Qed.

Lemma zero_state_well_formed : well_formed Silero.zero_state.
Proof. reflexivity. Qed.

Lemma batched_samples_well_formed audio : well_formed (batched_samples audio).
Proof.
  unfold well_formed. cbn [data shape batched_samples prod_shape].
  rewrite length_map, int16_le_length. lia.
Qed.

Lemma prod_shape_squeeze s :
  prod_shape (filter (fun n => n <> 1%nat) s) = prod_shape s.
Proof.
  induction s as [|n s IH]; [reflexivity|].
  rewrite filter_cons. destruct (decide (n <> 1%nat)) as [Hn|Hn]; cbn [prod_shape].
  - rewrite IH. reflexivity.
  - assert (n = 1%nat) as -> by (destruct (Nat.eq_dec n 1%nat); [assumption|tauto]).
    rewrite IH. lia.
Qed.

Lemma squeeze_well_formed a : well_formed a -> well_formed (squeeze a).
Proof.
  unfold well_formed, squeeze. cbn [data shape].
  rewrite prod_shape_squeeze. trivial.
Qed.

Lemma squeeze_idempotent a : squeeze (squeeze a) = squeeze a.
Proof.
  unfold squeeze. cbn [nd_dtype shape data]. f_equal.
  induction (shape a) as [|n s IH]; [reflexivity|].
  rewrite filter_cons. destruct (decide (n <> 1%nat)) as [Hn|Hn].
  - rewrite filter_cons. destruct (decide (n <> 1%nat)); [|tauto].
    rewrite IH. reflexivity.
  - exact IH.
Qed.

Lemma inputs_well_formed (self : Silero.t Engine) audio name a :
  well_formed (Silero._h self) -> well_formed (Silero._c self) ->
  Silero.ort_inputs self (batched_samples audio) !! name = Some a ->
  well_formed a.
Proof.
  intros Hh Hc. unfold Silero.ort_inputs. rewrite astype_batched_samples.
  intros H.
  apply lookup_insert_Some in H as [[_ <-]|[_ H]];
    [apply batched_samples_well_formed|].
  apply lookup_insert_Some in H as [[_ <-]|[_ H]]; [exact Hh|].
  apply lookup_insert_Some in H as [[_ <-]|[_ H]]; [exact Hc|].
  apply lookup_insert_Some in H as [[_ <-]|[_ H]]; [reflexivity|].
  rewrite lookup_empty in H. discriminate.
Qed.

Lemma call_keeps_well_formed audio self :
  returns_well_formed ort_run ->
  well_formed (Silero._h self) -> well_formed (Silero._c self) ->
  well_formed (Silero._h (self_after (call audio self)))
  /\ well_formed (Silero._c (self_after (call audio self)))
  /\ forall v, result (call audio self) = inr (PyArray v) -> well_formed v.
Proof.
  intros Hw Hh Hc.
  destruct (call_cases audio self) as [[_ ->]|[_ ->]];
    [repeat split; auto; discriminate|].
  unfold call_outcome.
  destruct (ort_inputs_lookup Engine self (batched_samples audio))
    as (_ & Hih & Hic & _).
  destruct (ort_run _ _ _) as [[what|outs] eng] eqn:Hrun;
    [repeat split; auto; discriminate|].
  pose proof (Hw _ _ _ _ _ _ _ Hih Hic Hh Hc Hrun) as HF.
  destruct outs as [|out [|h [|c [|x outs]]]];
    try (repeat split; auto; discriminate).
  inversion HF as [|? ? Ho HF1]; subst. inversion HF1 as [|? ? Hh' HF2]; subst.
  inversion HF2 as [|? ? Hc' _]; subst. cbn [self_after result Silero._h Silero._c].
  repeat split; auto. intros v [= <-]. apply squeeze_well_formed. exact Ho.
Qed.

Lemma reachable_well_formed self :
  returns_well_formed ort_run -> reachable self ->
  well_formed (Silero._h self) /\ well_formed (Silero._c self).
Proof.
  intros Hw. induction 1 as [onnx_path self Hinit | self Hr IH | self audio Hr IH].
  - pose proof (init_outcome Engine ort_load onnx_path) as H. rewrite Hinit in H.
    destruct H as (_ & _ & _ & -> & ->). split; apply zero_state_well_formed.
  - split; apply zero_state_well_formed.
  - destruct IH as [Hh Hc].
    destruct (call_keeps_well_formed audio self Hw Hh Hc) as (H1 & H2 & _). auto.
Qed.

(** X6. Provided the engine, run on well-formed states, returns
    well-formed arrays (as many entries as the shape says): in every state
    the detector reaches, each array [__call__] hands to the engine is
    well-formed, the states it stores afterwards are, and so is the array
    it returns. *)
Theorem engine_gets_well_formed_arrays self audio :
  returns_well_formed ort_run ->
  reachable self ->
  Forall (fun rc => forall name a,
            Silero.rc_inputs rc !! name = Some a -> well_formed a)
         (calls (call audio self))
  /\ well_formed (Silero._h (self_after (call audio self)))
  /\ well_formed (Silero._c (self_after (call audio self)))
  /\ forall v, result (call audio self) = inr (PyArray v) -> well_formed v.
Proof.
  intros Hw Hr. destruct (reachable_well_formed self Hw Hr) as [Hh Hc].
  split; [|apply call_keeps_well_formed; assumption].
  destruct (call_cases audio self) as [[_ ->]|[_ ->]]; [constructor|].
  assert (Hin : forall name a,
            Silero.ort_inputs self (batched_samples audio) !! name = Some a ->
            well_formed a).
  { intros name a. apply inputs_well_formed; assumption. }
  unfold call_outcome.
  destruct (ort_run _ _ _) as [[what|outs] eng];
    [constructor; [exact Hin|constructor]|].
  destruct outs as [|out [|h [|c [|x outs]]]];
    (constructor; [exact Hin|constructor]).
Qed.

(** X7. What [__call__] returns is the engine's first output with the
    same entries, the same dtype and the same number of entries; it has
    no axis of length one left, so that [squeeze] on it changes nothing. *)
Theorem returned_array_is_squeezed self audio v :
  result (call audio self) = inr v ->
  exists r out h c eng,
    v = PyArray r
    /\ ort_run (Silero.session self) None
         (Silero.ort_inputs self (batched_samples audio)) = (inr [out; h; c], eng)
    /\ prod_shape (shape r) = prod_shape (shape out)
    /\ data r = data out
    /\ nd_dtype r = nd_dtype out
    /\ squeeze r = r.
Proof.
  intros Hv.
  destruct (call_cases audio self) as [[_ E]|[_ E]]; rewrite E in Hv;
    [discriminate|].
  unfold call_outcome in Hv.
  destruct (ort_run _ _ _) as [[what|outs] eng]; [discriminate|].
  destruct outs as [|out [|h [|c [|x outs]]]]; try discriminate.
  injection Hv as <-. exists (squeeze out), out, h, c, eng.
  split; [reflexivity|]. split; [reflexivity|].
  split; [apply prod_shape_squeeze|]. split; [reflexivity|].
  split; [reflexivity|apply squeeze_idempotent].
Qed.
End SileroBehaviour.

(** ** The WebRTC detector, further *)

Section WebrtcBehaviour.
Variable Vad : Type.
Variable Vad_new : Vad.
Variable Vad_set_mode : Vad -> Z -> string + Vad.
Variable Vad_is_speech : Vad -> bytes -> Z -> (string + bool) * Vad.

Local Abbreviation wcall := (Webrtc.__call__ Vad Vad_is_speech).
Local Abbreviation wreset := (Webrtc.reset Vad).
Local Abbreviation winit := (Webrtc.__init__ Vad Vad_new Vad_set_mode).

(** X8. The WebRTC detector keeps nothing but the classifier object: a
    second frame is handed to the classifier as the first call left it,
    and a [reset] between the two frames changes nothing of the second
    call, neither what it returns nor the state it leaves. *)
Theorem webrtc_reset_keeps_classifier_state (self : Webrtc.t Vad) audio1 audio2 :
  let self1 := self_after (wcall audio1 self) in
  let vad1 := snd (Vad_is_speech (Webrtc.vad self) audio1 16000) in
  Webrtc.vad self1 = vad1
  /\ calls (wcall audio2 self1) = [Webrtc.mk_is_speech_call vad1 audio2 16000]
  /\ wcall audio2 (self_after (wreset self1)) = wcall audio2 self1.
Proof.
  cbn zeta. rewrite (webrtc_call_outcome Vad Vad_is_speech audio1 self).
  destruct (Vad_is_speech (Webrtc.vad self) audio1 16000) as [r v].
  cbn [self_after snd Webrtc.vad].
  split; [reflexivity|]. split; [|reflexivity].
  rewrite webrtc_call_outcome. cbn [Webrtc.vad].
  destruct (Vad_is_speech v audio2 16000); reflexivity.
Qed.

(** X9. Constructing the WebRTC detector without a mode is
    constructing it with mode 3.  When the classifier refuses the mode
    its exception comes out and there is no detector; otherwise the
    detector holds the classifier as [set_mode] left it, and that is the
    object the first frame is handed to. *)
Theorem webrtc_init_configures_classifier mode audio :
  let __init__ := Webrtc.__init__ Vad Vad_new Vad_set_mode in
  let __call__ := Webrtc.__call__ Vad Vad_is_speech in
  __init__ None = __init__ (Some 3)
  /\ match Vad_set_mode Vad_new (default 3 mode) with
     | inl what => __init__ mode = inl (External what)
     | inr v =>
         __init__ mode = inr (Webrtc.mk v)
         /\ calls (__call__ audio (Webrtc.mk v))
            = [Webrtc.mk_is_speech_call v audio 16000]
     end.
Proof.
  cbn zeta. split; [reflexivity|]. unfold Webrtc.__init__.
  destruct (Vad_set_mode Vad_new (default 3 mode)) as [what|v]; cbn;
    [reflexivity|].
  split; [reflexivity|]. rewrite webrtc_call_outcome. cbn [Webrtc.vad].
  destruct (Vad_is_speech v audio 16000); reflexivity.
Qed.
End WebrtcBehaviour.
(** ** The detectors at work, further *)

Lemma EchoEngine_returns_well_formed : returns_well_formed EchoEngine.run.
Proof.
  intros sess names inputs hi ci outs eng Hh Hc Hhi Hci Hrun.
  unfold EchoEngine.run in Hrun. rewrite Hh, Hc in Hrun.
  destruct (inputs !! "input"%string); [|discriminate].
  injection Hrun as <- <-.
  constructor; [apply repeat_length|].
  constructor; [apply repeat_length|].
  constructor; [exact Hci|constructor].
Qed.

Lemma call_that_raises_keeps_states_witness :
  result (echo_call [x01] echo_self) = inl MalformedAudioFrame
  /\ Silero._h (self_after (echo_call [x01] echo_self)) = Silero._h echo_self
  /\ Silero._c (self_after (echo_call [x01] echo_self)) = Silero._c echo_self.
Proof.
  assert (H : result (echo_call [x01] echo_self) = inl MalformedAudioFrame)
    by reflexivity.
  split; [exact H|].
  pose proof (call_that_raises_keeps_states EchoEngine.Engine EchoEngine.run
                echo_self [x01] MalformedAudioFrame H) as K.
  cbn zeta in K. split; apply K.
Defined.

Lemma call_exceptions_witness :
  (length [x01] mod 2 <> 0)%nat
  /\ result (echo_call [x01] echo_self) = inl MalformedAudioFrame
  /\ calls (echo_call [x01] echo_self) = [].
Proof.
  assert (Hodd : (length [x01] mod 2 <> 0)%nat) by (simpl; lia).
  split; [exact Hodd|].
  pose proof (call_exceptions EchoEngine.Engine EchoEngine.run echo_self [x01])
    as K. cbn zeta in K. destruct K as (K1 & K2 & _).
  split; [apply K1; exact Hodd|apply K2; exact Hodd].
Defined.

Lemma next_call_runs_on_returned_states_witness :
  (length [x00; x80] mod 2 = 0)%nat
  /\ (length silence_10ms mod 2 = 0)%nat
  /\ EchoEngine.run (Silero.session echo_self) None
       (Silero.ort_inputs echo_self (batched_samples [x00; x80]))
     = (inr [np_full_f32 [1; 1]%nat F32.zero;
             np_full_f32 [2; 1; 64]%nat F32.one;
             Silero.zero_state], 1%nat)
  /\ Silero.ort_inputs (self_after (echo_call [x00; x80] echo_self))
       (batched_samples silence_10ms) !! "h"%string
     = Some (np_full_f32 [2; 1; 64]%nat F32.one).
Proof.
  assert (Hrun : EchoEngine.run (Silero.session echo_self) None
       (Silero.ort_inputs echo_self (batched_samples [x00; x80]))
     = (inr [np_full_f32 [1; 1]%nat F32.zero;
             np_full_f32 [2; 1; 64]%nat F32.one;
             Silero.zero_state], 1%nat)) by (vm_compute; reflexivity).
  assert (He : (length silence_10ms mod 2 = 0)%nat) by reflexivity.
  split; [reflexivity|]. split; [exact He|]. split; [exact Hrun|].
  pose proof (next_call_runs_on_returned_states EchoEngine.Engine EchoEngine.run
                echo_self [x00; x80] silence_10ms _ _ _ _ eq_refl He Hrun) as K.
  cbn zeta in K. apply K.
Defined.

Lemma first_call_runs_on_zero_states_witness :
  Silero.__init__ EchoEngine.Engine EchoEngine.load (PathStr "silero_vad.onnx")
  = inr echo_self
  /\ (length [x00; x80] mod 2 = 0)%nat
  /\ EchoEngine.load (str (PathStr "silero_vad.onnx"))
     = inr (Silero.ort_state (Silero.session echo_self)).
Proof.
  split; [reflexivity|]. split; [reflexivity|].
  pose proof (first_call_runs_on_zero_states EchoEngine.Engine EchoEngine.load
                EchoEngine.run (PathStr "silero_vad.onnx") echo_self echo_self
                [x00; x80] eq_refl eq_refl) as K.
  cbn zeta in K. apply K.
Defined.

Lemma engine_gets_well_formed_arrays_witness :
  returns_well_formed EchoEngine.run
  /\ echo_reachable (self_after (echo_call [x00; x80] echo_self))
  /\ well_formed
       (Silero._h (self_after
          (echo_call silence_10ms (self_after (echo_call [x00; x80] echo_self))))).
Proof.
  split; [exact EchoEngine_returns_well_formed|].
  split; [exact echo_reachable_after_call|].
  pose proof (engine_gets_well_formed_arrays EchoEngine.Engine EchoEngine.load
                EchoEngine.run _ silence_10ms EchoEngine_returns_well_formed
                echo_reachable_after_call) as (_ & K & _).
  exact K.
Defined.

Lemma returned_array_is_squeezed_witness :
  result (echo_call [x00; x80] echo_self)
  = inr (PyArray (np_full_f32 [] F32.zero))
  /\ exists r out h c eng,
       PyArray (np_full_f32 [] F32.zero) = PyArray r
       /\ EchoEngine.run (Silero.session echo_self) None
            (Silero.ort_inputs echo_self (batched_samples [x00; x80]))
          = (inr [out; h; c], eng)
       /\ prod_shape (shape r) = prod_shape (shape out)
       /\ data r = data out
       /\ nd_dtype r = nd_dtype out
       /\ squeeze r = r.
Proof.
  assert (H : result (echo_call [x00; x80] echo_self)
              = inr (PyArray (np_full_f32 [] F32.zero)))
    by (vm_compute; reflexivity).
  split; [exact H|].
  exact (returned_array_is_squeezed EchoEngine.Engine EchoEngine.run
           echo_self [x00; x80] _ H).
Defined.
